(** * message-ix-models: exogenous data sources and cooling technologies

    A shallow embedding of [message_ix_models/tools/exo_data.py] (the source
    registry, [DemoSource], [prepare_computer] and
    [iamc_like_data_for_query]) and of the parts of
    [message_ix_models/model/water/data/water_for_ppl.py] that derive the
    parent technology, the cooling fraction, the year list and the result
    dictionary of [cool_tech].

    Python dictionaries whose order is irrelevant are [gmap]s; the registry
    [SOURCES], whose iteration order decides which provider is used, is an
    insertion-ordered association list.  Exceptions are values of [PyExc];
    code that mutates an object threads that object explicitly. *)

From Stdlib Require Import QArith Lqa Ascii String.
From stdpp Require Import gmap strings list pretty.

Open Scope string_scope.
Open Scope list_scope.

(** ** Python values shared by both modules *)
Module Py.

(** Exception classes that occur in the embedded code.  All of them are
    subclasses of [Exception]. *)
Inductive PyExc : Type :=
| ValueError (msg : string)
| KeyError (key : string)
| KeyExistsError (key : string)
| NotImplementedError
| TypeError (msg : string).

Inductive result (A : Type) : Type :=
| Ok (a : A)
| Raise (e : PyExc).
Arguments Ok {A} a.
Arguments Raise {A} e.

Definition is_ok {A} (r : result A) : bool :=
  match r with Ok _ => true | Raise _ => false end.

Definition to_option {A} (r : result A) : option A :=
  match r with Ok a => Some a | Raise _ => None end.

(** [str.lower] on the ASCII range. *)
Definition ascii_lower (c : ascii) : ascii :=
  let n := nat_of_ascii c in
  if (65 <=? n)%nat && (n <=? 90)%nat then ascii_of_nat (n + 32) else c.

Fixpoint lower (s : string) : string :=
  match s with
  | EmptyString => EmptyString
  | String c r => String (ascii_lower c) (lower r)
  end.

(** [s.startswith(p)] *)
Definition startswith (s p : string) : bool := String.prefix p s.

(** [s[n:]] *)
Fixpoint drop_str (n : nat) (s : string) : string :=
  match n, s with
  | O, _ => s
  | S k, EmptyString => EmptyString
  | S k, String _ r => drop_str k r
  end.

(** [s[:n]] *)
Fixpoint take_str (n : nat) (s : string) : string :=
  match n, s with
  | O, _ => EmptyString
  | S k, EmptyString => EmptyString
  | S k, String c r => String c (take_str k r)
  end.

(** [s.find(sep)]: index of the first occurrence, if any. *)
Fixpoint find_from (sep s : string) (i : nat) : option nat :=
  if String.prefix sep s then Some i
  else match s with
       | EmptyString => None
       | String _ r => find_from sep r (S i)
       end.

Definition find (sep s : string) : option nat := find_from sep s 0.

(** [sep in s] *)
Definition contains (sep s : string) : bool :=
  match find sep s with Some _ => true | None => false end.

(** [s.endswith(p)] *)
Definition endswith (s p : string) : bool :=
  bool_decide (drop_str (String.length s - String.length p) s = p).

(** [s.partition(sep)]: the part before the first occurrence of [sep],
    [sep] itself and the part after it; [(s, "", "")] without occurrence. *)
Definition partition (sep s : string) : string * string * string :=
  match find sep s with
  | Some i => (take_str i s, sep, drop_str (i + String.length sep) s)
  | None => (s, "", "")
  end.

(** [s.split(sep)] for a non-empty separator: the pieces between the
    non-overlapping occurrences of [sep], scanning from the left.  [skip]
    counts the characters of a separator that was already recognised and
    [cur] is the piece being read. *)
Fixpoint split_go (sep s : string) (skip : nat) (cur : string) : list string :=
  match s with
  | EmptyString => [cur]
  | String c r =>
      match skip with
      | S k => split_go sep r k cur
      | O =>
          if String.prefix sep s
          then cur :: split_go sep r (String.length sep - 1) ""
          else split_go sep r 0 (cur +:+ String c "")
      end
  end.

Definition split (sep s : string) : list string := split_go sep s 0 "".

End Py.

Import Py.

(** ** tools/exo_data.py *)
Module ExoData.

(** *** genno: keys, tasks and the Computer

    [genno.Key] has a name, dimensions and an optional tag; [k + tag]
    appends a tag, joining with "+" and dropping empty parts.  A string
    such as "n::codes" used as a key is the key with that name and tag
    and no dimensions. *)
Record Key : Type := mkKey {
  key_name : string;
  key_dims : list string;
  key_tag : string  (* "" when the key has no tag *)
}.

#[global] Instance Key_eq_dec : EqDecision Key.
Proof. solve_decision. Defined.

#[global] Instance Key_countable : Countable Key.
Proof.
  refine (inj_countable' (fun k => (key_name k, key_dims k, key_tag k))
            (fun t => mkKey t.1.1 t.1.2 t.2) _).
  by intros [].
Defined.

(** [str(key)] *)
Definition key_str (k : Key) : string :=
  match key_dims k, key_tag k with
  | [], EmptyString => key_name k
  | dims, EmptyString => key_name k +:+ ":" +:+ String.concat "-" dims
  | dims, tag => key_name k +:+ ":" +:+ String.concat "-" dims +:+ ":" +:+ tag
  end.

Definition add_tag (k : Key) (tag : string) : Key :=
  let joined :=
    if bool_decide (key_tag k = "") then tag
    else if bool_decide (tag = "") then key_tag k
    else key_tag k +:+ "+" +:+ tag in
  mkKey (key_name k) (key_dims k) joined.

(** [Key(name, "ny")]: every character of the second argument is one
    dimension. *)
Definition Key_ny (name : string) : Key := mkKey name ["n"; "y"] "".

(** Keys given as plain strings in the source. *)
Definition k_n_codes : Key := mkKey "n" [] "codes".
Definition k_n_groups : Key := mkKey "n" [] "groups".
Definition k_y : Key := mkKey "y" [] "".
Definition k_y0 : Key := mkKey "y0" [] "".
Definition k_y_coords : Key := mkKey "y" [] "coords".
Definition k_y0_coord : Key := mkKey "y0" [] "coord".

(** *** Quantities

    A [genno.Quantity] is kept as its dimensions, the labels along each
    dimension and its units; the numbers of [random_qty] are random and
    are left out. *)
Record Quantity : Type := mkQuantity {
  q_dims : list string;
  q_coords : gmap string (list string);
  q_units : string
}.

(** *** Source classes

    A class has its [id], its constructor and its [__call__].  The
    attributes an instance stores are a dictionary of strings (the
    [indexers] of [DemoSource]). *)
Record SourceClass : Type := mkSourceClass {
  cls_id : string;
  cls_init : string -> gmap string string -> result (gmap string string);
  cls_call : gmap string string -> result Quantity
}.

(** An instantiated source: its class and the attributes set by the
    constructor. *)
Record SourceObj : Type := mkSourceObj {
  obj_class : SourceClass;
  obj_attrs : gmap string string
}.

Definition obj_id (o : SourceObj) : string := cls_id (obj_class o).
Definition call (o : SourceObj) : result Quantity :=
  cls_call (obj_class o) (obj_attrs o).

(** Callables other than sources that [prepare_computer] puts in tasks. *)
Inductive Callable : Type :=
| itemgetter_0            (* itemgetter(0) *)
| lambda_y_coords         (* lambda years: dict(y=years) *)
| lambda_y0_coord.        (* lambda year: dict(y=year) *)

Inductive KwVal : Type :=
| KwBool (b : bool)
| KwDict (d : list (string * string)).

(** What [c.add(key, ...)] stores under a key. *)
Inductive Task : Type :=
| TQuoteCodes (codes : list string)            (* quote(<code list>) *)
| TQuoteYears (years : list Z)                 (* quote(info.Y) *)
| TFunc (f : Callable) (args : list Key)
| TSource (o : SourceObj)                      (* c.add(k_raw, source_obj) *)
| TOp (name : string) (args : list Key) (kwargs : list (string * KwVal)).

Record Computer : Type := mkComputer {
  graph : gmap Key Task;
  modules : list string
}.

(** *** State: the Computer, the logger and the constructors called *)
Record World : Type := mkWorld {
  comp : Computer;
  warnings : list string;
  tried : list string   (* ids of the classes instantiated, in order *)
}.

Definition M (A : Type) : Type := World -> result A * World.

Definition ret {A} (a : A) : M A := fun w => (Ok a, w).
Definition raise {A} (e : PyExc) : M A := fun w => (Raise e, w).
Definition bind {A B} (m : M A) (f : A -> M B) : M B :=
  fun w => match m w with
           | (Ok a, w') => f a w'
           | (Raise e, w') => (Raise e, w')
           end.

#[global] Instance M_ret : MRet M := @ret.
#[global] Instance M_bind : MBind M := fun A B f m => bind m f.

Definition log_warning (msg : string) : M unit :=
  fun w => (Ok tt, mkWorld (comp w) (warnings w ++ [msg]) (tried w)).

Definition note_tried (id : string) : M unit :=
  fun w => (Ok tt, mkWorld (comp w) (warnings w) (tried w ++ [id])).

Definition contains_key (k : Key) : M bool :=
  fun w => (Ok (bool_decide (is_Some (graph (comp w) !! k))), w).

(** [c.require_compat(name)] *)
Definition require_compat (name : string) : M unit :=
  fun w => (Ok tt,
            mkWorld (mkComputer (graph (comp w)) (modules (comp w) ++ [name]))
              (warnings w) (tried w)).

(** [c.add(key, task, strict=strict)]: with [strict] an existing key is an
    error; otherwise the entry is set, replacing an earlier one.  The key
    is returned. *)
Definition add (k : Key) (t : Task) (strict : bool) : M Key :=
  fun w =>
    if strict && bool_decide (is_Some (graph (comp w) !! k))
    then (Raise (KeyExistsError (key_str k)), w)
    else (Ok k,
          mkWorld (mkComputer (<[k := t]> (graph (comp w))) (modules (comp w)))
            (warnings w) (tried w)).

(** [if key not in c: <add>] *)
Definition unless_contains (k : Key) (m : M Key) : M unit :=
  bind (contains_key k)
    (fun b : bool => if b then ret tt else bind m (fun _ => ret tt)).

(** *** The module's globals *)
Definition MEASURES : list string := ["GDP"; "POP"].

(** [register_source(cls)] on the registry [SOURCES]; the new registry is
    returned next to the result. *)
Definition in_registry (id : string) (SOURCES : list (string * SourceClass)) : bool :=
  bool_decide (id ∈ SOURCES.*1).

Definition register_source (cls : SourceClass) (SOURCES : list (string * SourceClass))
  : result SourceClass * list (string * SourceClass) :=
  if in_registry (cls_id cls) SOURCES
  then (Raise (ValueError ("already registered for id " +:+ cls_id cls)), SOURCES)
  else (Ok cls, SOURCES ++ [(cls_id cls, cls)]).

(** [SOURCES[id]] *)
Fixpoint registry_get (id : string) (SOURCES : list (string * SourceClass))
  : option SourceClass :=
  match SOURCES with
  | [] => None
  | (i, c) :: rest => if bool_decide (i = id) then Some c else registry_get id rest
  end.

(** Registering a list of classes one after the other, ignoring the
    calls that raise. *)
Definition register_all (clss : list SourceClass) (SOURCES : list (string * SourceClass))
  : list (string * SourceClass) :=
  foldl (fun S c => (register_source c S).2) SOURCES clss.

(** *** DemoSource *)
Section Demo.
(** [pycountry.countries]: the alpha-3 codes, in the package's order. *)
Variable countries : list string.

(** [genno.testing.random_qty(shape, units=...)]: dimensions in the
    order of [shape], labels "<dim><i>". *)
Definition random_qty (shape : list (string * nat)) (units : string) : Quantity :=
  mkQuantity (shape.*1)
    (list_to_map
       (map (fun dn : string * nat =>
               (dn.1, map (fun i : nat => dn.1 +:+ pretty i) (seq 0 dn.2)))
          shape))
    units.

(** [genno.computations.relabel(qty, dim=mapping)]: labels found in the
    mapping are replaced, the others are kept. *)
Definition relabel (q : Quantity) (dim : string) (mapping : gmap string string)
  : Quantity :=
  mkQuantity (q_dims q)
    (alter (map (fun l => default l (mapping !! l))) dim (q_coords q))
    (q_units q).

(** [genno.computations.select(qty, indexers, drop=True)] with one label
    per indexed dimension: a label that the dimension does not have is a
    [KeyError]; the indexed dimensions are dropped. *)
Definition has_label (q : Quantity) (dim label : string) : bool :=
  bool_decide (label ∈ default [] (q_coords q !! dim)).

Definition bad_label (q : Quantity) (indexers : gmap string string)
  : option string :=
  head (omap (fun d => match indexers !! d with
                       | Some l => if has_label q d l then None else Some l
                       | None => None
                       end) (q_dims q)).

Definition select (q : Quantity) (indexers : gmap string string)
  : result Quantity :=
  match bad_label q indexers with
  | Some l => Raise (KeyError l)
  | None =>
      Ok (mkQuantity
            (filter (fun d => indexers !! d = None) (q_dims q))
            (filter (fun dl : string * list string => indexers !! dl.1 = None)
               (q_coords q))
            (q_units q))
  end.

(** [DemoSource.random_data()] *)
Definition random_data : Quantity :=
  relabel
    (relabel
       (relabel
          (random_qty [("n", length countries); ("y", 2%nat); ("s", 5%nat); ("v", 2%nat)]
             "kg")
          "n" (list_to_map (imap (fun i c => ("n" +:+ pretty i, c)) countries)))
       "v" (<["v0" := "Population"]> {["v1" := "GDP"]}))
    "y" (<["y0" := "2010"]> {["y1" := "2050"]}).

(** The dictionary [{"POP": "Population", "GDP": "GDP"}]. *)
Definition measure_variable : gmap string string :=
  <["POP" := "Population"]> {["GDP" := "GDP"]}.

(** [DemoSource.__init__]; the returned dictionary is [self.indexers]. *)
Definition DemoSource_init (source : string) (source_kw : gmap string string)
  : result (gmap string string) :=
  if negb (startswith source "test ") then Raise (ValueError "")
  else
    let scenario := (partition "test " source).2 in
    let indexers : gmap string string := {["s" := scenario]} in
    match source_kw !! "measure" with
    | None => Raise (KeyError "measure")
    | Some m =>
        match measure_variable !! m with
        | None => Raise (KeyError m)
        | Some v => Ok (<["v" := v]> indexers)
        end
    end.

(** [DemoSource.__call__] *)
Definition DemoSource_call (indexers : gmap string string) : result Quantity :=
  select random_data indexers.

Definition DemoSource : SourceClass :=
  mkSourceClass "DEMO" DemoSource_init DemoSource_call.

(** Whether a request "test <scenario>" for [measure] is accepted and
    answered with a quantity over exactly n and y. *)
Definition demo_request_ok (scenario measure : string) : bool :=
  match DemoSource_init ("test " +:+ scenario) {["measure" := measure]} with
  | Ok indexers =>
      match DemoSource_call indexers with
      | Ok q => bool_decide (q_dims q = ["n"; "y"])
      | Raise _ => false
      end
  | Raise _ => false
  end.

(** The registry after the module is imported: [@register_source] on
    [DemoSource], starting from [SOURCES = {}]. *)
Definition SOURCES_initial : list (string * SourceClass) :=
  (register_source DemoSource []).2.
End Demo.

(** *** prepare_computer *)
Record Context : Type := mkContext {
  model_regions : string;   (* context.model.regions *)
  model_years : string      (* context.model.years *)
}.

Section PrepareComputer.
(** [message_ix_models.model.structure.get_codes] and the periods that
    [ScenarioInfo.year_from_codes] followed by [info.Y] gives for a code
    list. *)
Variable get_codes : string -> list string.
Variable Y_from_codes : list string -> list Z.

(** The loop over [SOURCES.values()]: every class is instantiated and
    an exception leaves [source_obj] as it was. *)
Fixpoint try_sources (clss : list SourceClass) (source : string)
  (source_kw : gmap string string) (source_obj : option SourceObj)
  : M (option SourceObj) :=
  match clss with
  | [] => ret source_obj
  | cls :: rest =>
      note_tried (cls_id cls);;
      match cls_init cls source source_kw with
      | Ok attrs => try_sources rest source source_kw (Some (mkSourceObj cls attrs))
      | Raise _ => try_sources rest source source_kw source_obj
      end
  end.

(** "Handle arguments": the measure named by [source_kw], with a
    warning when it is not one of [MEASURES]; "UNKNOWN" when the key is
    missing or its value is empty. *)
Definition warning_text (measure : string) : string :=
  "source_kw 'measure' must be one of ('GDP', 'POP'); got " +:+ measure.

Definition handle_measure (source_kw : gmap string string) : M string :=
  match source_kw !! "measure" with
  | Some (String c r as measure) =>
      if bool_decide (measure ∈ MEASURES) then ret measure
      else log_warning (warning_text measure);; ret measure
  | _ => ret "UNKNOWN"
  end.

(** "Add structural information to the Computer" up to the coords and
    indexers. *)
Definition add_structure (context : Context) (strict : bool) : M unit :=
  require_compat "message_ix_models.report.computations";;
  add k_n_codes (TQuoteCodes (get_codes ("node/" +:+ model_regions context))) strict;;
  add k_n_groups (TOp "codelist_to_groups" [k_n_codes] []) strict;;
  unless_contains k_y
    (add k_y (TQuoteYears (Y_from_codes (get_codes ("year/" +:+ model_years context))))
       false);;
  unless_contains k_y0 (add k_y0 (TFunc itemgetter_0 [k_y]) false);;
  add k_y_coords (TFunc lambda_y_coords [k_y]) false;;
  add k_y0_coord (TFunc lambda_y0_coord [k_y0]) false;;
  ret tt.

(** "Retrieve the raw data", "Aggregate", "Interpolate", "Index to y0". *)
Definition add_data_flow (measure : string) (source_obj : SourceObj) : M (list Key) :=
  let k := Key_ny (lower measure) in
  let k_raw := add_tag k (obj_id source_obj) in
  add k_raw (TSource source_obj) false;;
  add (add_tag k_raw "agg")
    (TOp "aggregate" [k_raw; k_n_groups] [("keep", KwBool false)]) false;;
  add k (TOp "interpolate" [add_tag k_raw "agg"; k_y_coords]
           [("kwargs", KwDict [("fill_value", "extrapolate")])]) false;;
  k_indexed ← add (add_tag k "y0 indexed") (TOp "index_to" [k; k_y0_coord] []) false;
  ret [k; k_indexed].

Definition prepare_computer (SOURCES : list (string * SourceClass))
  (context : Context) (source : string)
  (source_kw : option (gmap string string)) (strict : bool) : M (list Key) :=
  let source_kw : gmap string string := default ∅ source_kw in
  measure ← handle_measure source_kw;
  source_obj ← try_sources (SOURCES.*2) source source_kw None;
  match source_obj with
  | None => raise (ValueError ("No source found that can handle " +:+ source))
  | Some source_obj =>
      add_structure context strict;;
      add_data_flow measure source_obj
  end.
End PrepareComputer.

Definition empty_world : World := mkWorld (mkComputer ∅ []) [] [].

(** What one trial instantiation yields: the source object, or nothing
    when the constructor raises. *)
Definition accept (source : string) (source_kw : gmap string string)
  (cls : SourceClass) : option SourceObj :=
  match cls_init cls source source_kw with
  | Ok attrs => Some (mkSourceObj cls attrs)
  | Raise _ => None
  end.

(** The measure that [handle_measure] settles on and the warnings it
    logs, as functions of [source_kw]. *)
Definition measure_of (source_kw : gmap string string) : string :=
  match source_kw !! "measure" with
  | Some (String c r as measure) => measure
  | _ => "UNKNOWN"
  end.

Definition measure_warnings (source_kw : gmap string string) : list string :=
  match source_kw !! "measure" with
  | Some (String c r as measure) =>
      if bool_decide (measure ∈ MEASURES) then [] else [warning_text measure]
  | _ => []
  end.

(** The world with another graph. *)
Definition with_graph (g : gmap Key Task) (w : World) : World :=
  mkWorld (mkComputer g (modules (comp w))) (warnings w) (tried w).

(** The world once the arguments are handled and the registry has been
    gone through. *)
Definition after_lookup (SOURCES : list (string * SourceClass))
  (source_kw : gmap string string) (w : World) : World :=
  mkWorld (comp w) (warnings w ++ measure_warnings source_kw)
    (tried w ++ map cls_id (SOURCES.*2)).

(** Concrete inputs on which the statements below are evaluated. *)
Definition sample_countries : list string := ["AFG"; "ALB"; "DZA"].
Definition sample_get_codes (name : string) : list string :=
  if startswith name "node/" then ["World"; "R11_AFR"; "R11_CPA"]
  else ["2020"; "2030"; "2050"].
Definition sample_Y_from_codes (codes : list string) : list Z :=
  [2020%Z; 2030%Z; 2050%Z].
Definition sample_context : Context := mkContext "R11" "B".
Definition kw_POP : gmap string string := {["measure" := "POP"]}.

(** The object [DemoSource] builds for "test s1" and the measure POP. *)
Definition demo_s1 : SourceObj :=
  mkSourceObj (DemoSource sample_countries) (<["v" := "Population"]> {["s" := "s1"]}).

(** A Computer that already holds the node code list. *)
Definition world_with_codes : World :=
  mkWorld (mkComputer {[k_n_codes := TQuoteCodes ["World"]]} []) [] [].

(** A step that leaves the record of instantiated classes and the logged
    warnings alone. *)
Definition keeps_log {A} (m : M A) : Prop :=
  forall w, tried (m w).2 = tried w /\ warnings (m w).2 = warnings w.

(** A class whose constructor fails with an exception that is not a
    [ValueError]. *)
Definition BrokenSource : SourceClass :=
  mkSourceClass "BROKEN" (fun _ _ => Raise (TypeError "unexpected argument"))
    (fun _ => Raise NotImplementedError).

(** Two classes that accept every request: one keeps the empty [id] of
    [ExoDataSource], the other one is called like the tag of the indexed
    key. *)
Definition NoIdSource : SourceClass :=
  mkSourceClass "" (fun _ _ => Ok ∅) (fun _ => Ok (mkQuantity ["n"; "y"] ∅ "")).

Definition IndexedIdSource : SourceClass :=
  mkSourceClass "y0 indexed" (fun _ _ => Ok ∅)
    (fun _ => Ok (mkQuantity ["n"; "y"] ∅ "")).

(** A class whose constructor takes every request, and whose data has
    the two required dimensions. *)
Definition AnySource : SourceClass :=
  mkSourceClass "ANY" (fun _ _ => Ok ∅)
    (fun _ => Ok (mkQuantity ["n"; "y"] ∅ "")).

(** A property of the world that a step keeps, whether the step returns
    or raises. *)
Definition preserves {A} (P : World -> Prop) (m : M A) : Prop :=
  forall w, P w -> P (m w).2.

(** The entry of the graph under a key. *)
Definition entry (k : Key) (v : option Task) (w : World) : Prop :=
  graph (comp w) !! k = v.

(** The keys that [add_structure] may write. *)
Definition structure_keys : list Key :=
  [k_n_codes; k_n_groups; k_y; k_y0; k_y_coords; k_y0_coord].

(** Computers that already hold the periods, the node groups, or the
    quantity of another measure. *)
Definition world_with_periods : World :=
  mkWorld (mkComputer {[k_y := TQuoteYears [2025%Z; 2035%Z]]} []) [] [].

Definition world_with_groups : World :=
  mkWorld (mkComputer {[k_n_groups := TOp "codelist_to_groups" [k_n_codes] []]} []) [] [].

Definition world_with_gdp : World :=
  mkWorld (mkComputer {[Key_ny "gdp" := TOp "interpolate" [] []]} []) [] [].

(** The variable that [DemoSource] selects for a measure. *)
Definition demo_variable (measure : string) : string :=
  if bool_decide (measure = "POP") then "Population" else "GDP".

(** The scenario labels of the demo data. *)
Definition demo_scenarios : list string := ["s0"; "s1"; "s2"; "s3"; "s4"].

(** *** iamc_like_data_for_query

    The file at [path] is given as its rows, in IAMC format: the columns
    Model, Scenario, Variable, Unit and Region, and one column per year
    whose cell may be empty.  The decorator [@cached] only stores the
    result and is left out. *)
Record IamcRow : Type := mkIamcRow {
  MODEL : string;
  SCENARIO : string;
  VARIABLE : string;
  UNIT : string;
  REGION : string;
  series : list (Z * option Q)   (* year column, value or NaN *)
}.

(** The two [RuntimeError]s of [drop_unique], and the error of the unit
    registry when [Quantity(..., units=...)] is given a unit that it does
    not know. *)
Inductive IamcError : Type :=
| NoRows                                             (* "0 rows matching ..." *)
| NotUnique (name : string) (values : list string)   (* "Not unique ...: ..." *)
| UndefinedUnit (unit : string).                     (* pint.UndefinedUnitError *)

(** [df[name]] for the names that [drop_unique] is called with. *)
Definition column (name : string) (r : IamcRow) : string :=
  if bool_decide (name = "MODEL") then MODEL r
  else if bool_decide (name = "SCENARIO") then SCENARIO r
  else if bool_decide (name = "VARIABLE") then VARIABLE r
  else if bool_decide (name = "UNIT") then UNIT r
  else REGION r.

(** [series.unique()]: the values in the order of their first occurrence. *)
Fixpoint unique_values (l : list string) : list string :=
  match l with
  | [] => []
  | x :: r => x :: filter (fun y => y <> x) (unique_values r)
  end.

(** The loop of [drop_unique] over the names, filling [unique]. *)
Fixpoint check_unique (names : list string) (df : list IamcRow)
  (unique : gmap string string) : IamcError + gmap string string :=
  match names with
  | [] => inr unique
  | name :: rest =>
      let values := unique_values (map (column name) df) in
      if (1 <? length values)%nat then inl (NotUnique name values)
      else check_unique rest df (<[name := default "" (head values)]> unique)
  end.

(** "MODEL SCENARIO VARIABLE UNIT".split() *)
Definition unique_names : list string := ["MODEL"; "SCENARIO"; "VARIABLE"; "UNIT"].

(** [drop_unique(df, names)]: the dictionary [unique] and the frame without
    the named columns, that is the region and the year columns. *)
Definition drop_unique (df : list IamcRow)
  : IamcError + (gmap string string * list (string * list (Z * option Q))) :=
  match df with
  | [] => inl NoRows
  | _ =>
      match check_unique unique_names df ∅ with
      | inl e => inl e
      | inr unique => inr (unique, map (fun r => (REGION r, series r)) df)
      end
  end.

(** [df.replace(replace)] on the text columns. *)
Definition replace_row (replace : gmap string string) (r : IamcRow) : IamcRow :=
  let f s := default s (replace !! s) in
  mkIamcRow (f (MODEL r)) (f (SCENARIO r)) (f (VARIABLE r)) (f (UNIT r)) (f (REGION r))
    (series r).

(** The result: a series indexed by node and year, with units. *)
Record IamcQuantity : Type := mkIamcQuantity {
  entries : list (string * Z * Q);
  iamc_units : string
}.

Section Iamc.
(** [message_ix_models.util.pycountry.iso_3166_alpha_3]: the alpha-3 code
    of a region name, if it has one. *)
Variable iso_3166_alpha_3 : string -> option string.

(** The unit registry used by [genno.Quantity]: whether a unit string is
    one that it can parse. *)
Variable units_defined : string -> bool.

(** [.assign(n=...).dropna(subset=["n"]).drop("REGION").set_index("n")] *)
Definition index_by_node (df : list (string * list (Z * option Q)))
  : list (string * list (Z * option Q)) :=
  omap (fun rs : string * list (Z * option Q) =>
          match iso_3166_alpha_3 rs.1 with
          | Some n => Some (n, rs.2)
          | None => None
          end) df.

(** [.stack().dropna()] *)
Definition stack (df : list (string * list (Z * option Q))) : list (string * Z * Q) :=
  flat_map (fun ns : string * list (Z * option Q) =>
              omap (fun yv : Z * option Q =>
                      match yv.2 with
                      | Some v => Some (ns.1, yv.1, v)
                      | None => None
                      end) ns.2) df.

Definition iamc_like_data_for_query (rows : list IamcRow) (query : IamcRow -> bool)
  (replace : option (gmap string string)) : IamcError + IamcQuantity :=
  let df := map (replace_row (default ∅ replace)) (filter (fun r => query r = true) rows) in
  match drop_unique df with
  | inl e => inl e
  | inr (unique, df) =>
      let tmp := stack (index_by_node df) in
      let units := default "" (unique !! "UNIT") in
      if units_defined units then inr (mkIamcQuantity tmp units)
      else inl (UndefinedUnit units)
  end.
End Iamc.

(** The frame that [drop_unique] sees. *)
Definition queried (rows : list IamcRow) (query : IamcRow -> bool)
  (replace : option (gmap string string)) : list IamcRow :=
  map (replace_row (default ∅ replace)) (filter (fun r => query r = true) rows).

(** A column with the same value in every row. *)
Definition constant_column (name : string) (df : list IamcRow) : Prop :=
  forall r1 r2, r1 ∈ df -> r2 ∈ df -> column name r1 = column name r2.

(** Population of two regions and of the world, and an alpha-3 lookup
    that knows the two regions. *)
Definition sample_iamc : list IamcRow :=
  [mkIamcRow "IIASA" "SSP2" "Population" "million" "Austria"
     [(2020%Z, Some (9 # 1)); (2030%Z, None)];
   mkIamcRow "IIASA" "SSP2" "Population" "million" "World"
     [(2020%Z, Some (7800 # 1)); (2030%Z, Some (8500 # 1))];
   mkIamcRow "IIASA" "SSP2" "GDP" "billion" "Austria"
     [(2020%Z, Some (400 # 1)); (2030%Z, Some (450 # 1))];
   mkIamcRow "IIASA" "SSP2" "Population" "million" "Albania"
     [(2020%Z, Some (3 # 1)); (2030%Z, Some (3 # 1))]].

Definition sample_iso (region : string) : option string :=
  if bool_decide (region = "Austria") then Some "AUT"
  else if bool_decide (region = "Albania") then Some "ALB"
  else None.

Definition is_population (r : IamcRow) : bool := bool_decide (VARIABLE r = "Population").

(** A unit registry that knows the two units of the sample. *)
Definition sample_units (unit : string) : bool :=
  bool_decide (unit = "million") || bool_decide (unit = "billion").

End ExoData.

(** ** model/water/data/water_for_ppl.py *)
Module WaterForPpl.

(** *** Data frames

    A cell is a string, a number or an integer; [CInf] and [CNaN] are the
    two special floating-point values that a division can produce.
    Numbers are exact rationals.  A row maps column names to cells and a
    data frame is the list of its rows. *)
Inductive Cell : Type :=
| CStr (s : string)
| CNum (q : Q)
| CInt (z : Z)
| CInf (negative : bool)
| CNaN.

Abbreviation Row := (gmap string Cell).
Abbreviation DataFrame := (list (gmap string Cell)).

Definition row (cells : list (string * Cell)) : Row := list_to_map cells.

Definition col (name : string) (r : Row) : Cell := default CNaN (r !! name).

Definition is_nan (c : Cell) : bool :=
  match c with CNaN => true | _ => false end.

(** [df.dropna(subset=["value"])] *)
Definition dropna_value (df : DataFrame) : DataFrame :=
  filter (fun r : Row => is_nan (col "value" r) = false) df.

Definition opt_str (o : option string) : Cell :=
  match o with Some s => CStr s | None => CNaN end.

Definition opt_num (o : option Q) : Cell :=
  match o with Some q => CNum q | None => CNaN end.

(** Floating-point division, on exact numbers: a zero divisor gives an
    infinity, or NaN for 0/0. *)
Definition num_div (a b : Q) : Cell :=
  if Qeq_bool b 0
  then (if Qeq_bool a 0 then CNaN else CInf (negb (Qle_bool 0 a)))
  else CNum (a / b).

(** [series.drop_duplicates()] on a column of cells that are strings or
    missing. *)
#[global] Instance Cell_str_eq_dec (a b : option string) : Decision (a = b).
Proof. solve_decision. Defined.

Fixpoint drop_duplicates (l : list (option string)) : list (option string) :=
  match l with
  | [] => []
  | x :: r => x :: filter (fun y => y <> x) (drop_duplicates r)
  end.

(** *** Parent technology of a cooling technology *)
Record TechRow : Type := mkTechRow {
  technology_name : string;
  technology_group : string;
  water_supply_type : string
}.

(** [names.apply(lambda x: pd.Series(str(x).split("__"))).drop(columns=1)]
    assigned to the single column "parent_tech".  The applied frame has as
    many columns as the longest split; [drop(columns=1)] needs a column 1,
    and the assignment needs exactly one column to be left.  An empty
    series stays an empty series. *)
Definition split_width (names : list string) : nat :=
  foldr Nat.max 0%nat (map (fun x => length (split "__" x)) names).

Definition parent_tech_column (names : list string) : result (list string) :=
  match names with
  | [] => Ok []
  | _ =>
      match split_width names with
      | 0%nat | 1%nat => Raise (KeyError "[1] not found in axis")
      | 2%nat => Ok (map (fun x => default "" (head (split "__" x))) names)
      | _ => Raise (ValueError "Cannot set a DataFrame with multiple columns")
      end
  end.

(** [cooling_df] with its "parent_tech" column, in [cool_tech]: *)
Definition cool_tech_cooling_df (df : list TechRow)
  : result (list (TechRow * string)) :=
  let cooling_df :=
    filter (fun r => technology_group r = "cooling") df in
  match parent_tech_column (map technology_name cooling_df) with
  | Ok parents => Ok (zip cooling_df parents)
  | Raise e => Raise e
  end.

(** and in [non_cooling_tec]: *)
Definition non_cooling_tec_cooling_df (df : list TechRow)
  : result (list (TechRow * string)) :=
  let cooling_df :=
    filter (fun r => technology_group r = "cooling") df in
  match parent_tech_column (map technology_name cooling_df) with
  | Ok parents => Ok (zip cooling_df parents)
  | Raise e => Raise e
  end.

(** *** Cooling fraction *)

(** [ref_input["cooling_fraction"] = ref_input["value"] * 0.9 - 1] *)
Definition ref_cooling_fraction (value : Q) : Q := value * (9 # 10) - 1.

(** A row of [input_cool] after the joins, the [dropna] on "value", the
    integer conversion of the years and the two filters on "level" and
    "hpl". *)
Record InputCool : Type := mkInputCool {
  index : string;                         (* the parent technology *)
  ic_technology_name : option string;
  ic_node_loc : string;
  ic_year_vtg : Z;
  ic_year_act : Z;
  ic_mode : string;
  ic_node_origin : string;
  ic_value : Q;
  water_withdrawal_mid_m3_per_output : option Q;
  parasitic_electricity_demand_fraction : option Q
}.

(** The nested function [cooling_fr(x)] *)
Definition cooling_fr (x : InputCool) : Q :=
  if contains "hpl" (index x) then ic_value x - 1
  else ic_value x - (ic_value x * (1 # 10)) - 1.

(** The input value from which on the cooling fraction of a technology
    is not negative. *)
Definition cooling_threshold (x : InputCool) : Q :=
  if contains "hpl" (index x) then 1 else 10 # 9.

(** The name of a cooling technology: <parent>__<coolingtype>. *)
Definition cooling_name (parent cooling_type : string) : string :=
  parent +:+ "__" +:+ cooling_type.

(** The separator of a well-formed name is its only occurrence of "__":
    none starts in the parent, none lies in the cooling type. *)
Definition one_separator (parent cooling_type : string) : Prop :=
  contains "__" (parent +:+ "_") = false /\ contains "__" cooling_type = false.

(** A name of a cooling technology in the form <parent>__<coolingtype>. *)
Definition well_formed (name : string) : Prop :=
  exists p c, name = cooling_name p c /\ one_separator p c.

(** [name.partition("__")[0]]: the part of a name before the separator. *)
Definition before_separator (name : string) : string :=
  (partition "__" name).1.1.

(** [name.partition("__")[2]]: the part of a name after the first
    separator, empty when there is none. *)
Definition after_separator (name : string) : string :=
  (partition "__" name).2.

(** A name with a separator, and one with a second separator after the
    first. *)
Definition has_separator (name : string) : bool := contains "__" name.

Definition second_separator (name : string) : bool :=
  contains "__" (after_separator name).

(** A coal plant with an input of exactly one unit per unit of output. *)
Definition coal_ppl_unit_input : InputCool :=
  mkInputCool "coal_ppl" (Some "coal_ppl__ot_fresh") "R11_AFR" 2020 2020 "M1" "R11_AFR"
    1 (Some (3 # 100)) None.

(** Rows of the technology table. *)
Definition sample_techs : list TechRow :=
  [mkTechRow "coal_ppl__ot_fresh" "cooling" "freshwater_supply";
   mkTechRow "coal_ppl" "parent" "freshwater_supply";
   mkTechRow "gas_cc__air" "cooling" "air"].

(** A table in which one cooling technology has no separator in its
    name, and one in which a cooling technology has two. *)
Definition sample_techs_plain : list TechRow :=
  [mkTechRow "coal_ppl__ot_fresh" "cooling" "freshwater_supply";
   mkTechRow "solo" "cooling" "air"].

Definition sample_techs_twice : list TechRow :=
  [mkTechRow "coal_ppl__ot__fresh" "cooling" "freshwater_supply";
   mkTechRow "gas_cc__air" "cooling" "air"].

(** *** The context and its build information

    [context["water build info"]] is an object shared with every other
    user of the context.  Its year list is a list object on the heap; the
    record holds the address. *)
Abbreviation Heap := (gmap nat (list Z)).

Record ScenarioInfo : Type := mkScenarioInfo {
  N : list string;       (* info.N *)
  year_list : nat        (* address of the stored list of model years *)
}.

Record Context : Type := mkContext {
  regions : string;
  type_reg : string;
  nexus_set : string;
  water_build_info : ScenarioInfo
}.

Definition HeapM (A : Type) : Type := Heap -> A * Heap.

#[global] Instance HeapM_ret : MRet HeapM := fun A a h => (a, h).
#[global] Instance HeapM_bind : MBind HeapM :=
  fun A B f m h => let r := m h in f r.1 r.2.

(** The list stored at an address. *)
Definition deref (l : nat) : HeapM (list Z) :=
  fun h => (default [] (h !! l), h).

(** [lst.insert(0, x)] on the list object at address [l]. *)
Definition insert_front (l : nat) (x : Z) : HeapM unit :=
  fun h => (tt, <[l := x :: default [] (h !! l)]> h).

(** *** Tables read by [cool_tech] *)
Record Basin : Type := mkBasin { BCU_name : string; REGION : string }.

Record CostRow : Type := mkCostRow {
  utype : string;
  cooling : string;
  investment_million_USD_per_MW_mid : Q
}.

(** What [cool_tech] reads or derives by joins before it assembles its
    result: the basin delineation, [input_cool] (see [InputCool]), the
    cost table, the two frames of historical values of the cooling
    technologies and the restacked water availability. *)
Record CoolData : Type := mkCoolData {
  df_node : list Basin;
  input_cool : list InputCool;
  cost : list CostRow;
  act_value_df : DataFrame;
  cap_value_df : DataFrame;
  df_wat_1 : DataFrame
}.

(** [input_cool] with its "cooling_fraction" and "value_cool" columns. *)
Record Cooled : Type := mkCooled {
  base : InputCool;
  cooling_fraction : Q;
  value_cool : Cell
}.

Definition seconds_per_year_1e9 : Q := 60 * 60 * 24 * 365 * (1 # 1000000000).

Definition add_cooling_columns (x : InputCool) : Cooled :=
  let cf := cooling_fr x in
  mkCooled x cf
    match water_withdrawal_mid_m3_per_output x with
    | Some w => num_div (w * seconds_per_year_1e9) cf
    | None => CNaN
    end.

Definition name_endswith (suffix : string) (x : Cooled) : bool :=
  match ic_technology_name (base x) with
  | Some n => endswith n suffix
  | None => false   (* na=False *)
  end.

Definition parasitic_positive (x : Cooled) : bool :=
  match parasitic_electricity_demand_fraction (base x) with
  | Some p => negb (Qle_bool p 0)
  | None => false
  end.

(** [electr["value_cool"] = electr[parasitic] / electr["cooling_fraction"]] *)
Definition electr_value_cool (x : Cooled) : Cooled :=
  mkCooled (base x) (cooling_fraction x)
    match parasitic_electricity_demand_fraction (base x) with
    | Some p => num_div p (cooling_fraction x)
    | None => CNaN
    end.

(** One row of [make_df("input", ...)] for a cooling technology. *)
Definition input_row (commodity level unit : string) (x : Cooled) : Row :=
  row [("node_loc", CStr (ic_node_loc (base x)));
       ("technology", opt_str (ic_technology_name (base x)));
       ("year_vtg", CInt (ic_year_vtg (base x)));
       ("year_act", CInt (ic_year_act (base x)));
       ("mode", CStr (ic_mode (base x)));
       ("node_origin", CStr (ic_node_origin (base x)));
       ("commodity", CStr commodity);
       ("level", CStr level);
       ("time", CStr "year");
       ("time_origin", CStr "year");
       ("value", value_cool x);
       ("unit", CStr unit)].

(** The cooling-technology "input" table, before [dropna]. *)
Definition cooling_inputs (input_cool : list Cooled) : DataFrame :=
  let electr := map electr_value_cool (filter (fun x => parasitic_positive x = true) input_cool) in
  let saline_df := filter (fun x => name_endswith "ot_saline" x = true) input_cool in
  let icmse_df :=
    filter (fun x => negb (name_endswith "ot_saline" x) && negb (name_endswith "air" x) = true)
      input_cool in
  map (input_row "electr" "secondary" "GWa") electr
  ++ map (input_row "freshwater_supply" "water_supply" "km3/GWa") icmse_df
  ++ map (input_row "saline_supply_ppl" "water_supply" "km3/GWa") saline_df.

Definition techs_to_remove : list string :=
  ["mw_ppl__ot_fresh"; "mw_ppl__ot_saline"; "mw_ppl__cl_fresh"; "mw_ppl__air";
   "nuc_fbr__ot_fresh"; "nuc_fbr__ot_saline"; "nuc_fbr__cl_fresh"; "nuc_fbr__air";
   "nuc_htemp__ot_fresh"; "nuc_htemp__ot_saline"; "nuc_htemp__cl_fresh";
   "nuc_htemp__air"].

Definition cost_technology (c : CostRow) : string :=
  utype c +:+ "__" +:+ cooling c.

(** [info.N[1:13]] *)
Definition N_1_13 (info : ScenarioInfo) : list Cell :=
  map CStr (take 12 (drop 1 (N info))).

(** The "output" rows that have one row per year of a year list, all
    other columns being scalars. *)
Definition output_by_year (technology unit level commodity : string) (Y1 Y2 : list Z)
  : DataFrame :=
  map (fun yy : Z * Z =>
         row [("technology", CStr technology); ("value", CInt 1); ("unit", CStr unit);
              ("year_vtg", CInt yy.1); ("year_act", CInt yy.2);
              ("level", CStr level); ("commodity", CStr commodity);
              ("mode", CStr "M1"); ("time", CStr "year");
              ("time_dest", CStr "year"); ("time_origin", CStr "year")])
    (zip Y1 Y2).

(** The "input" table that links water supply to the energy system: one
    row per basin, before the years are broadcast. *)
Definition water_to_en_input (df_node : list Basin) : DataFrame :=
  map (fun b =>
         row [("technology", CStr "water_to_en"); ("value", CInt 1); ("unit", CStr "-");
              ("level", CStr "water_supply_basin");
              ("commodity", CStr "freshwater_supply_basin");
              ("mode", CStr ("M" +:+ BCU_name b));
              ("time", CStr "year"); ("time_origin", CStr "year");
              ("node_origin", CStr ("B" +:+ BCU_name b));
              ("node_loc", CStr ("R11_" +:+ REGION b))])
    df_node.

(** *** cool_tech *)
Section CoolTech.
(** Evaluating [info.Y]: the address of a list of years, in a heap that
    the evaluation may have extended.  The class [ScenarioInfo] lives in
    [message_ix_models.util]. *)
Variable get_Y : ScenarioInfo -> HeapM nat.

(** Helpers of [message_ix_models.util]. *)
Variable broadcast : list (string * list Cell) -> DataFrame -> DataFrame.
Variable same_node : DataFrame -> DataFrame.
Variable make_matched_dfs : DataFrame -> string -> Cell -> DataFrame.

(** [info.Y] used as a value. *)
Definition Y_cells (info : ScenarioInfo) : HeapM (list Cell) :=
  l ← get_Y info; ys ← deref l; mret (map CInt ys).

(** Lines 512-516:
    [year = info.Y; if 2010 in year: pass; else: year.insert(0, 2010)].
    The address bound to [year] is returned. *)
Definition add_2010 (info : ScenarioInfo) : HeapM nat :=
  year ← get_Y info;
  ys ← deref year;
  (if bool_decide (2010%Z ∈ ys) then mret tt else insert_front year 2010%Z);;
  mret year.

Definition cooling_output (info : ScenarioInfo) : HeapM DataFrame :=
  Y1 ← (l ← get_Y info; deref l);
  Y2 ← (l ← get_Y info; deref l);
  let fresh :=
    same_node
      (broadcast [("node_loc", N_1_13 info)]
         (output_by_year "extract_freshwater_supply" "km3" "water_supply"
            "freshwater_supply" Y1 Y2)) in
  Y3 ← (l ← get_Y info; deref l);
  Y4 ← (l ← get_Y info; deref l);
  mret (fresh ++
        same_node
          (broadcast [("node_loc", N_1_13 info)]
             (output_by_year "extract_saline_supply" "km3" "water_supply"
                "saline_supply_ppl" Y3 Y4))).

Definition nexus_output (info : ScenarioInfo) (df_node : list Basin) : HeapM DataFrame :=
  let basin :=
    map (fun b =>
           row [("technology", CStr "extract_freshwater_supply"); ("value", CInt 1);
                ("unit", CStr "-"); ("level", CStr "water_supply_basin");
                ("commodity", CStr "freshwater_supply_basin"); ("mode", CStr "M1");
                ("node_loc", CStr ("B" +:+ BCU_name b));
                ("node_dest", CStr ("B" +:+ BCU_name b));
                ("time", CStr "year"); ("time_dest", CStr "year");
                ("time_origin", CStr "year")]) df_node in
  Y1 ← Y_cells info;
  Y2 ← Y_cells info;
  let output_df := broadcast [("year_vtg", Y1); ("year_act", Y2)] basin in
  Y3 ← (l ← get_Y info; deref l);
  Y4 ← (l ← get_Y info; deref l);
  let output_df :=
    output_df ++
    same_node
      (broadcast [("node_loc", N_1_13 info)]
         (output_by_year "extract_saline_supply" "km3" "water_supply"
            "saline_supply_ppl" Y3 Y4)) in
  let link :=
    map (fun b =>
           row [("technology", CStr "water_to_en"); ("value", CInt 1);
                ("unit", CStr "-"); ("level", CStr "water_supply");
                ("commodity", CStr "freshwater_supply");
                ("mode", CStr ("M" +:+ BCU_name b));
                ("node_loc", CStr ("R11_" +:+ REGION b));
                ("node_dest", CStr ("R11_" +:+ REGION b));
                ("time", CStr "year"); ("time_dest", CStr "year");
                ("time_origin", CStr "year")]) df_node in
  Y5 ← Y_cells info;
  Y6 ← Y_cells info;
  mret (output_df ++ broadcast [("year_vtg", Y5); ("year_act", Y6)] link).

(** The part of [cool_tech] that only runs when the context's
    [nexus_set] is "nexus". *)
Definition nexus_results (info : ScenarioInfo) (data : CoolData)
  (results : gmap string DataFrame) : HeapM (gmap string DataFrame) :=
  output_df ← nexus_output info (df_node data);
  let results := <["output" := output_df]> results in
  Y1 ← Y_cells info;
  Y2 ← Y_cells info;
  let inp :=
    broadcast [("year_vtg", Y1); ("year_act", Y2)] (water_to_en_input (df_node data)) in
  let results := <["input" := inp]> results in
  Y3 ← Y_cells info;
  Y4 ← Y_cells info;
  let var :=
    broadcast [("year_vtg", Y3); ("year_act", Y4)]
      (map (fun b =>
              row [("technology", CStr "water_to_en");
                   ("mode", CStr ("M" +:+ BCU_name b));
                   ("node_loc", CStr ("R11_" +:+ REGION b));
                   ("time", CStr "year"); ("value", CInt 20); ("unit", CStr "-")])
         (df_node data)) in
  let results := <["var_cost" := var]> results in
  let share :=
    map (fun r : Row =>
           row [("shares", CStr "share_basin"); ("technology", CStr "water_to_en");
                ("mode", col "mode" r); ("node_share", col "region" r);
                ("time", CStr "year"); ("value", col "value" r); ("unit", CStr "-");
                ("year_act", col "year" r)]) (df_wat_1 data) in
  mret (<["share_mode_up" := share]> results).

Definition cool_tech (context : Context) (data : CoolData)
  : HeapM (gmap string DataFrame) :=
  let results : gmap string DataFrame := ∅ in
  let info := water_build_info context in
  let input_cool := map add_cooling_columns (input_cool data) in
  let inp := dropna_value (cooling_inputs input_cool) in
  let results := <["input" := inp]> results in
  let h_act :=
    map (fun r : Row =>
           row [("node_loc", col "node_loc" r); ("technology", col "cooling_technology" r);
                ("year_act", col "year_act" r); ("mode", CStr "M1"); ("time", CStr "year");
                ("value", col "new_value" r); ("unit", CStr "km3/GWa")])
      (act_value_df data) in
  let results := <["historical_activity" := h_act]> results in
  let h_cap :=
    map (fun r : Row =>
           row [("node_loc", col "node_loc" r); ("technology", col "cooling_technology" r);
                ("year_vtg", col "year_vtg" r); ("value", col "new_value" r);
                ("unit", CStr "km3/GWa")])
      (cap_value_df data) in
  let results := <["historical_new_capacity" := h_cap]> results in
  let inv_cost :=
    filter (fun c => cost_technology c ∉ techs_to_remove) (cost data) in
  Y_inv ← Y_cells info;
  let inv_cost :=
    broadcast [("node_loc", N_1_13 info); ("year_vtg", Y_inv)]
      (same_node
         (map (fun c =>
                 row [("technology", CStr (cost_technology c));
                      ("value", CNum (investment_million_USD_per_MW_mid c * 1000));
                      ("unit", CStr "USD/GWa")]) inv_cost)) in
  let results := <["inv_cost" := inv_cost]> results in
  let addon_df :=
    map (fun x =>
           row [("node", CStr (ic_node_loc (base x)));
                ("technology", CStr (index (base x)));
                ("year_vtg", CInt (ic_year_vtg (base x)));
                ("year_act", CInt (ic_year_act (base x)));
                ("mode", CStr (ic_mode (base x))); ("time", CStr "year");
                ("type_addon", CStr ("cooling__" +:+ index (base x)));
                ("value", CNum (cooling_fraction x)); ("unit", CStr "km3/GWa")])
      input_cool in
  let results := <["addon_conversion" := addon_df]> results in
  let results := <["addon_lo" := make_matched_dfs addon_df "addon_lo" (CInt 1)]> results in
  year ← add_2010 info;
  year_now ← deref year;
  let technologies :=
    drop_duplicates (map (fun r : Row => match col "technology" r with
                                         | CStr t => Some t
                                         | _ => None
                                         end) inp) in
  let tl :=
    same_node
      (broadcast [("year_vtg", map CInt year_now); ("node_loc", N_1_13 info)]
         (map (fun t => row [("technology", opt_str t); ("value", CInt 30);
                             ("unit", CStr "year")]) technologies)) in
  let results := <["technical_lifetime" := tl]> results in
  results ← (if bool_decide (nexus_set context = "cooling")
             then output_df ← cooling_output info;
                  mret (<["output" := output_df]> results)
             else mret results);
  let results :=
    <["capacity_factor" := make_matched_dfs inp "capacity_factor" (CInt 1)]> results in
  if bool_decide (nexus_set context = "nexus")
  then nexus_results info data results
  else mret results.
End CoolTech.

(** What is assumed of [ScenarioInfo.Y], a property of
    [message_ix_models.util] that computes the list of model years anew on
    every access: the list it returns is an object of its own, at an
    address that no object had before, holding the model years of the
    build information; nothing else changes. *)
Definition hands_out_copy (get_Y : ScenarioInfo -> HeapM nat) : Prop :=
  forall info h, exists l,
    (l ∉ dom h) /\ l <> year_list info /\
    get_Y info h = (l, <[l := default [] (h !! year_list info)]> h).

(** An accessor of this kind, used where a statement is evaluated. *)
Definition Y_fresh_copy (info : ScenarioInfo) : HeapM nat :=
  fun h =>
    let l := fresh (dom h ∪ {[year_list info]}) in
    (l, <[l := default [] (h !! year_list info)]> h).

(** The model years of the build information. *)
Definition stored_years (info : ScenarioInfo) (h : Heap) : list Z :=
  default [] (h !! year_list info).

(** The objects of a heap, and the year list of the build information,
    are the same in a later heap. *)
Definition unchanged (info : ScenarioInfo) (h h' : Heap) : Prop :=
  forall l, (l ∈ dom h) \/ l = year_list info -> h' !! l = h !! l.

(** [broadcast(df, dim=labels, ...)] as the product of the rows with the
    labels of every dimension given. *)
Definition broadcast_product (dims : list (string * list Cell)) (df : DataFrame)
  : DataFrame :=
  foldl (fun frame (dl : string * list Cell) =>
           r ← frame; c ← dl.2; [<[dl.1 := c]> r]) df dims.

(** Stand-ins for the other two helpers of [message_ix_models.util], used
    where a statement is evaluated on concrete tables: [same_node] copies
    "node_loc" into the node columns that are missing, and
    [make_matched_dfs] gives every row of the base frame the new value. *)
Definition same_node_fill (df : DataFrame) : DataFrame :=
  map (fun r : Row =>
         foldr (fun c (acc : Row) =>
                  match acc !! c with
                  | Some _ => acc
                  | None => <[c := col "node_loc" r]> acc
                  end) r ["node_origin"; "node_dest"]) df.

Definition matched_df (base : DataFrame) (name : string) (value : Cell) : DataFrame :=
  map (fun r : Row => <["value" := value]> r) base.

(** Columns that [broadcast] is asked to fill are the only ones in which a
    row of its result differs from the row it comes from. *)
Definition keeps_other_columns
  (broadcast : list (string * list Cell) -> DataFrame -> DataFrame) : Prop :=
  forall dims df r,
    r ∈ broadcast dims df ->
    exists r0, r0 ∈ df /\ forall c, c ∉ dims.*1 -> r !! c = r0 !! c.

(** A computation that leaves alone every object it finds and the year
    list of the build information. *)
Definition keeps_objects {A} (info : ScenarioInfo) (m : HeapM A) : Prop :=
  forall h, unchanged info h (m h).2.

(** Pre- and postcondition of a computation on the heap. *)
Definition hoare {A} (P : Heap -> Prop) (m : HeapM A) (Q : A -> Heap -> Prop) : Prop :=
  forall h, P h -> Q (m h).1 (m h).2.

(** The list that [year] is bound to after lines 512-516, for stored
    years [ys]. *)
Definition with_2010 (ys : list Z) : list Z :=
  if bool_decide (2010%Z ∈ ys) then ys else 2010%Z :: ys.

(** The row of the linking table that belongs to a basin: lines 644-655,
    with the two year columns still to be filled by [broadcast]. *)
Definition links_basin (b : Basin) (r : Row) : Prop :=
  col "technology" r = CStr "water_to_en"
  /\ col "value" r = CInt 1
  /\ col "unit" r = CStr "-"
  /\ col "level" r = CStr "water_supply_basin"
  /\ col "commodity" r = CStr "freshwater_supply_basin"
  /\ col "mode" r = CStr ("M" +:+ BCU_name b)
  /\ col "time" r = CStr "year"
  /\ col "time_origin" r = CStr "year"
  /\ col "node_origin" r = CStr ("B" +:+ BCU_name b)
  /\ col "node_loc" r = CStr ("R11_" +:+ REGION b)
  /\ col "year_vtg" r = CNaN
  /\ col "year_act" r = CNaN.

(** The commodities of the cooling-technology inputs. *)
Definition cooling_commodities : list Cell :=
  [CStr "electr"; CStr "freshwater_supply"; CStr "saline_supply_ppl"].

(** A region with one basin, one coal plant and a horizon without 2010. *)
Definition sample_info : ScenarioInfo := mkScenarioInfo ["World"; "R11_AFR"] 0.
Definition sample_nexus_context : Context := mkContext "R11" "global" "nexus" sample_info.
Definition sample_data : CoolData :=
  mkCoolData [mkBasin "1|AFR" "AFR"] [coal_ppl_unit_input] [] [] [] [].
Definition sample_heap : Heap := {[0%nat := [2020%Z; 2030%Z]]}.

End WaterForPpl.

(** * Properties of tools/exo_data.py *)
Section ExoDataFacts.
Import ExoData.

Implicit Types (w : World) (k : Key) (t : Task) (cls : SourceClass).
Implicit Types (SOURCES : list (string * SourceClass)).

Lemma bind_Ok {A B} (m : M A) (f : A -> M B) w a w' :
  m w = (Ok a, w') -> (m ≫= f) w = f a w'.
Proof. intros E. unfold mbind, M_bind, bind. by rewrite E. Qed.

Lemma bind_Raise {A B} (m : M A) (f : A -> M B) w e w' :
  m w = (Raise e, w') -> (m ≫= f) w = (Raise e, w').
Proof. intros E. unfold mbind, M_bind, bind. by rewrite E. Qed.

Lemma add_nonstrict k t w :
  add k t false w = (Ok k, with_graph (<[k := t]> (graph (comp w))) w).
Proof. reflexivity. Qed.

Lemma add_absent k t strict w :
  graph (comp w) !! k = None ->
  add k t strict w = (Ok k, with_graph (<[k := t]> (graph (comp w))) w).
Proof.
  intros E. unfold add. rewrite E.
  rewrite bool_decide_eq_false_2; [|by intros [? ?]].
  by rewrite andb_false_r.
Qed.

Lemma add_strict_present k t w :
  is_Some (graph (comp w) !! k) ->
  add k t true w = (Raise (KeyExistsError (key_str k)), w).
Proof. intros E. unfold add. by rewrite bool_decide_eq_true_2. Qed.

(** The loop over the registry visits every class and keeps the object
    of the last constructor that returned. *)
Lemma try_sources_spec (clss : list SourceClass) source kw acc w :
  try_sources clss source kw acc w =
    (Ok (from_option Some acc (last (omap (accept source kw) clss))),
     mkWorld (comp w) (warnings w) (tried w ++ map cls_id clss)).
Proof.
  revert acc w. induction clss as [|cls rest IH]; intros acc w.
  - simpl. destruct w. by rewrite app_nil_r.
  - cbn [try_sources]. erewrite bind_Ok by reflexivity.
    assert (Hhd : omap (accept source kw) (cls :: rest)
                  = from_option (fun o => [o]) [] (accept source kw cls)
                    ++ omap (accept source kw) rest).
    { cbn. by destruct (accept source kw cls). }
    rewrite Hhd. unfold accept at 1.
    destruct (cls_init cls source kw) as [attrs|e] eqn:E; rewrite IH; cbn;
      rewrite <- app_assoc; f_equal.
    rewrite last_cons. by destruct (last _).
Qed.


Lemma handle_measure_spec kw w :
  handle_measure kw w =
    (Ok (measure_of kw),
     mkWorld (comp w) (warnings w ++ measure_warnings kw) (tried w)).
Proof.
  unfold handle_measure, measure_of, measure_warnings.
  destruct (kw !! "measure") as [[|c r]|]; cbn;
    try (destruct w; by rewrite app_nil_r).
  case_bool_decide; cbn; [destruct w; by rewrite app_nil_r | done].
Qed.

Variable get_codes : string -> list string.
Variable Y_from_codes : list string -> list Z.

(** [prepare_computer] is the lookup followed, when a class accepted the
    request, by the two groups of [c.add] calls on the object of the last
    class that accepted. *)
Lemma prepare_computer_lookup SOURCES context source source_kw strict w :
  let kw := default ∅ source_kw in
  prepare_computer get_codes Y_from_codes SOURCES context source source_kw strict w =
    match last (omap (accept source kw) (SOURCES.*2)) with
    | None =>
        (Raise (ValueError ("No source found that can handle " +:+ source)),
         after_lookup SOURCES kw w)
    | Some o =>
        (add_structure get_codes Y_from_codes context strict ≫=
           fun _ => add_data_flow (measure_of kw) o) (after_lookup SOURCES kw w)
    end.
Proof.
  intros kw. unfold prepare_computer. fold kw.
  erewrite bind_Ok by apply handle_measure_spec.
  erewrite bind_Ok by apply try_sources_spec.
  cbn [from_option]. unfold after_lookup. cbn.
  by destruct (last _).
Qed.

Lemma add_data_flow_spec measure o w :
  let k := Key_ny (lower measure) in
  let k_raw := add_tag k (obj_id o) in
  add_data_flow measure o w =
    (Ok [k; add_tag k "y0 indexed"],
     with_graph
       (<[add_tag k "y0 indexed" := TOp "index_to" [k; k_y0_coord] []]>
          (<[k := TOp "interpolate" [add_tag k_raw "agg"; k_y_coords]
                    [("kwargs", KwDict [("fill_value", "extrapolate")])]]>
             (<[add_tag k_raw "agg" :=
                  TOp "aggregate" [k_raw; k_n_groups] [("keep", KwBool false)]]>
                (<[k_raw := TSource o]> (graph (comp w)))))) w).
Proof. reflexivity. Qed.

Lemma unless_contains_spec k t w :
  exists g,
    unless_contains k (add k t false) w = (Ok tt, with_graph g w)
    /\ is_Some (g !! k)
    /\ (forall k', k' <> k -> g !! k' = graph (comp w) !! k').
Proof.
  unfold unless_contains, bind, contains_key. cbn.
  case_bool_decide as Hk.
  - exists (graph (comp w)). split; [by destruct w as [[] ? ?]|done].
  - exists (<[k := t]> (graph (comp w))). split; [done|]. split.
    + rewrite lookup_insert_eq. eauto.
    + intros k' Hne. by rewrite lookup_insert_ne.
Qed.

(** The structural part succeeds when [strict] is off or the two keys it
    adds strictly are free; it only touches keys without dimensions. *)
Lemma add_structure_spec context strict w :
  strict = false
  \/ (graph (comp w) !! k_n_codes = None /\ graph (comp w) !! k_n_groups = None) ->
  exists g,
    add_structure get_codes Y_from_codes context strict w =
      (Ok tt,
       mkWorld (mkComputer g (modules (comp w) ++ ["message_ix_models.report.computations"]))
         (warnings w) (tried w))
    /\ g !! k_n_groups = Some (TOp "codelist_to_groups" [k_n_codes] [])
    /\ g !! k_y_coords = Some (TFunc lambda_y_coords [k_y])
    /\ g !! k_y0_coord = Some (TFunc lambda_y0_coord [k_y0])
    /\ (forall k, key_dims k <> [] -> g !! k = graph (comp w) !! k).
Proof.
  intros Hstrict. unfold add_structure.
  erewrite bind_Ok by reflexivity.
  set (w1 := mkWorld _ _ _).
  set (t1 := TQuoteCodes _).
  assert (H1 : add k_n_codes t1 strict w1
               = (Ok k_n_codes, with_graph (<[k_n_codes := t1]> (graph (comp w))) w1)).
  { destruct Hstrict as [->|[Hc _]]; [done | by apply (add_absent _ _ _ w1)]. }
  erewrite bind_Ok by apply H1.
  set (w2 := with_graph _ w1).
  set (t2 := TOp "codelist_to_groups" _ _).
  assert (H2 : add k_n_groups t2 strict w2
               = (Ok k_n_groups, with_graph (<[k_n_groups := t2]> (graph (comp w2))) w2)).
  { destruct Hstrict as [->|[_ Hg]]; [done|]. apply add_absent.
    subst w2 w1. cbn. by rewrite lookup_insert_ne. }
  erewrite bind_Ok by apply H2.
  set (w3 := with_graph _ w2).
  destruct (unless_contains_spec k_y
              (TQuoteYears (Y_from_codes (get_codes ("year/" +:+ model_years context)))) w3)
    as (g4 & E4 & _ & F4).
  erewrite bind_Ok by apply E4.
  destruct (unless_contains_spec k_y0 (TFunc itemgetter_0 [k_y]) (with_graph g4 w3))
    as (g5 & E5 & _ & F5).
  erewrite bind_Ok by apply E5.
  do 2 (erewrite bind_Ok by apply add_nonstrict).
  eexists. split; [reflexivity|]. cbn.
  split; [|split; [|split]].
  - rewrite !lookup_insert_ne by done. rewrite F5, F4 by done.
    subst w3. cbn. by rewrite lookup_insert_eq.
  - rewrite lookup_insert_ne by done. by rewrite lookup_insert_eq.
  - by rewrite lookup_insert_eq.
  - intros k Hk.
    assert (forall n tg, k <> mkKey n [] tg) as Hne by (intros n tg ->; by apply Hk).
    rewrite !lookup_insert_ne by (apply not_eq_sym, Hne).
    rewrite F5, F4 by apply Hne. subst w3 w2 w1. cbn.
    by rewrite !lookup_insert_ne by (apply not_eq_sym, Hne).
Qed.


Lemma keeps_log_bind {A B} (m : M A) (f : A -> M B) :
  keeps_log m -> (forall a, keeps_log (f a)) -> keeps_log (m ≫= f).
Proof.
  intros Hm Hf w. unfold mbind, M_bind, bind.
  destruct (Hm w) as [Ht Hw]. destruct (m w) as [[a|e] w']; cbn in *; [|done].
  destruct (Hf a w') as [Ht' Hw']. split; congruence.
Qed.

Lemma keeps_log_add k t strict : keeps_log (add k t strict).
Proof. intros w. unfold add. by destruct (_ && _). Qed.

Lemma keeps_log_unless k (m : M Key) : keeps_log m -> keeps_log (unless_contains k m).
Proof.
  intros Hm w. unfold unless_contains, bind, contains_key.
  case_bool_decide; [done|]. specialize (Hm w). by destruct (m w) as [[] ?].
Qed.

Lemma keeps_log_structure context strict :
  keeps_log (add_structure get_codes Y_from_codes context strict).
Proof.
  unfold add_structure.
  apply keeps_log_bind; [by intros ?|intros _].
  do 2 (apply keeps_log_bind; [apply keeps_log_add|intros _]).
  do 2 (apply keeps_log_bind;
        [apply keeps_log_unless, keeps_log_add|intros _]).
  do 2 (apply keeps_log_bind; [apply keeps_log_add|intros _]).
  by intros ?.
Qed.

Lemma keeps_log_data_flow measure o : keeps_log (add_data_flow measure o).
Proof. intros w. by rewrite add_data_flow_spec. Qed.

(** Once a class has accepted, the rest of [prepare_computer] neither
    instantiates a class nor logs. *)
Lemma keeps_log_flow context strict measure o :
  keeps_log (add_structure get_codes Y_from_codes context strict ≫=
               fun _ => add_data_flow measure o).
Proof.
  apply keeps_log_bind; [apply keeps_log_structure|intros _].
  apply keeps_log_data_flow.
Qed.

Lemma omap_accept_none source kw (clss : list SourceClass) :
  Forall (fun c => is_ok (cls_init c source kw) = false) clss ->
  omap (accept source kw) clss = [].
Proof.
  induction 1 as [|c l Hc _ IH]; [done|]. cbn. rewrite IH.
  unfold accept. by destruct (cls_init c source kw).
Qed.

Lemma last_accepting source kw (pre post : list SourceClass) cls attrs :
  cls_init cls source kw = Ok attrs ->
  Forall (fun c => is_ok (cls_init c source kw) = false) post ->
  last (omap (accept source kw) (pre ++ cls :: post)) = Some (mkSourceObj cls attrs).
Proof.
  intros Hc Hpost. rewrite omap_app. cbn.
  rewrite (omap_accept_none _ _ _ Hpost).
  unfold accept at 2. rewrite Hc. by rewrite last_snoc.
Qed.

(** Keys of the data flow. *)
Lemma agg_ne_indexed (id : string) : id +:+ "+agg" <> "y0 indexed".
Proof. do 11 (destruct id as [|? id]; try discriminate). Qed.

Lemma append_ne_self (a b : string) : b <> "" -> a +:+ b <> a.
Proof.
  intros Hb. induction a as [|c a IH]; cbn; [done|].
  intros [= E]. by apply IH.
Qed.

Lemma add_tag_Key_ny name tag : add_tag (Key_ny name) tag = mkKey name ["n"; "y"] tag.
Proof. reflexivity. Qed.

Lemma add_tag_agg name id :
  id <> "" -> add_tag (mkKey name ["n"; "y"] id) "agg" = mkKey name ["n"; "y"] (id +:+ "+agg").
Proof. intros H. unfold add_tag. cbn. by rewrite bool_decide_eq_false_2. Qed.

(** C1 (as amended).  When a provider accepted the request, the structural
    keys can be added ([strict] is off, or "n::codes" and "n::groups" are
    free) and the provider's id is neither empty nor "y0 indexed",
    [prepare_computer] returns the keys of the interpolated and of the
    indexed quantity, in that order, and the graph holds the four tasks
    raw -> aggregate -> interpolate -> index_to, each applied to the key of
    the one before, next to the structural keys they refer to. *)
Theorem prepare_computer_wires SOURCES context source source_kw strict w o :
  let kw := default ∅ source_kw in
  let k := Key_ny (lower (measure_of kw)) in
  let k_raw := add_tag k (obj_id o) in
  let k_agg := add_tag k_raw "agg" in
  let k_indexed := add_tag k "y0 indexed" in
  last (omap (accept source kw) (SOURCES.*2)) = Some o ->
  strict = false
  \/ (graph (comp w) !! k_n_codes = None /\ graph (comp w) !! k_n_groups = None) ->
  obj_id o <> "" ->
  obj_id o <> "y0 indexed" ->
  let r := prepare_computer get_codes Y_from_codes SOURCES context source source_kw
             strict w in
  let g := graph (comp r.2) in
  r.1 = Ok [k; k_indexed]
  /\ g !! k_raw = Some (TSource o)
  /\ g !! k_agg = Some (TOp "aggregate" [k_raw; k_n_groups] [("keep", KwBool false)])
  /\ g !! k = Some (TOp "interpolate" [k_agg; k_y_coords]
                      [("kwargs", KwDict [("fill_value", "extrapolate")])])
  /\ g !! k_indexed = Some (TOp "index_to" [k; k_y0_coord] [])
  /\ is_Some (g !! k_n_groups) /\ is_Some (g !! k_y_coords) /\ is_Some (g !! k_y0_coord).
Proof.
  intros kw k k_raw k_agg k_indexed Hlast Hstrict Hid Hid' r g.
  subst r g. rewrite prepare_computer_lookup. fold kw. rewrite Hlast.
  destruct (add_structure_spec context strict (after_lookup SOURCES kw w) Hstrict)
    as (g1 & E1 & Hgroups & Hcoords & Hcoord & _).
  erewrite bind_Ok by apply E1. rewrite add_data_flow_spec. cbn [fst snd].
  fold k k_raw k_agg k_indexed. unfold with_graph. cbn [comp graph].
  assert (Ek_raw : k_raw = mkKey (lower (measure_of kw)) ["n"; "y"] (obj_id o)) by done.
  assert (Ek_agg : k_agg = mkKey (lower (measure_of kw)) ["n"; "y"] (obj_id o +:+ "+agg")).
  { unfold k_agg. rewrite Ek_raw. by apply add_tag_agg. }
  assert (Ek_ind : k_indexed = mkKey (lower (measure_of kw)) ["n"; "y"] "y0 indexed") by done.
  assert (Ek : k = mkKey (lower (measure_of kw)) ["n"; "y"] "") by done.
  assert (k_raw <> k) by (rewrite Ek_raw, Ek; congruence).
  assert (k_agg <> k).
  { rewrite Ek_agg, Ek. intros [= E]. by destruct (obj_id o). }
  assert (k_agg <> k_raw).
  { rewrite Ek_agg, Ek_raw. intros [= E]. by apply append_ne_self in E. }
  assert (k_indexed <> k) by (rewrite Ek_ind, Ek; congruence).
  assert (k_indexed <> k_raw) by (rewrite Ek_ind, Ek_raw; congruence).
  assert (k_indexed <> k_agg).
  { rewrite Ek_ind, Ek_agg. intros [= E]. symmetry in E. by apply agg_ne_indexed in E. }
  assert (Hstruct : forall n tg,
             k_indexed <> mkKey n [] tg /\ k <> mkKey n [] tg
             /\ k_agg <> mkKey n [] tg /\ k_raw <> mkKey n [] tg).
  { intros n tg. rewrite Ek, Ek_raw, Ek_agg, Ek_ind. by repeat split. }
  split; [done|].
  split. { rewrite !lookup_insert_ne by done. by rewrite lookup_insert_eq. }
  split. { rewrite !lookup_insert_ne by done. by rewrite lookup_insert_eq. }
  split. { rewrite !lookup_insert_ne by done. by rewrite lookup_insert_eq. }
  split. { by rewrite lookup_insert_eq. }
  rewrite !lookup_insert_ne by apply Hstruct.
  rewrite Hgroups, Hcoords, Hcoord. eauto.
Qed.

(** C2.  When the constructor of every registered class raises,
    [prepare_computer] has instantiated each of them, raises [ValueError]
    and leaves the Computer as it was. *)
Theorem prepare_computer_no_source SOURCES context source source_kw strict w :
  Forall (fun cls => is_ok (cls_init cls source (default ∅ source_kw)) = false)
    (SOURCES.*2) ->
  let r := prepare_computer get_codes Y_from_codes SOURCES context source source_kw
             strict w in
  r.1 = Raise (ValueError ("No source found that can handle " +:+ source))
  /\ comp r.2 = comp w
  /\ tried r.2 = tried w ++ map cls_id (SOURCES.*2).
Proof.
  intros Hall r. subst r. rewrite prepare_computer_lookup.
  by rewrite (omap_accept_none _ _ _ Hall).
Qed.

(** C10.  The loop does not stop at a class that accepts: with the registry
    split around a class whose constructor returns and after which every
    constructor raises (whatever the exception), all classes are
    instantiated in registry order and the object used for the data flow
    is the one of that class, also when classes before it accept too. *)
Theorem lookup_keeps_last_accepting_class SOURCES context source source_kw strict w
    (pre post : list SourceClass) cls attrs :
  let kw := default ∅ source_kw in
  SOURCES.*2 = pre ++ cls :: post ->
  cls_init cls source kw = Ok attrs ->
  Forall (fun c => is_ok (cls_init c source kw) = false) post ->
  let o := mkSourceObj cls attrs in
  let r := prepare_computer get_codes Y_from_codes SOURCES context source source_kw
             strict w in
  try_sources (SOURCES.*2) source kw None w
    = (Ok (Some o),
       mkWorld (comp w) (warnings w)
         (tried w ++ map cls_id pre ++ cls_id cls :: map cls_id post))
  /\ r = (add_structure get_codes Y_from_codes context strict ≫=
            fun _ => add_data_flow (measure_of kw) o) (after_lookup SOURCES kw w)
  /\ tried r.2 = tried w ++ map cls_id (SOURCES.*2).
Proof.
  intros kw Hsplit Hcls Hpost o r.
  pose proof (last_accepting source kw pre post cls attrs Hcls Hpost) as Hlast.
  rewrite <- Hsplit in Hlast.
  assert (Er : r = (add_structure get_codes Y_from_codes context strict ≫=
            fun _ => add_data_flow (measure_of kw) o) (after_lookup SOURCES kw w)).
  { subst r. rewrite prepare_computer_lookup. fold kw. by rewrite Hlast. }
  split; [|split; [done|]].
  - rewrite try_sources_spec, Hlast. cbn. rewrite Hsplit.
    by rewrite map_app.
  - rewrite Er. by rewrite (proj1 (keeps_log_flow context strict (measure_of kw) o _)).
Qed.

Lemma SOURCES_initial_eq (countries : list string) :
  SOURCES_initial countries = [("DEMO", DemoSource countries)].
Proof. reflexivity. Qed.


End ExoDataFacts.

Section ExoDataExamples.
Import ExoData.

Lemma prepare_computer_wires_witness :
  let r := prepare_computer sample_get_codes sample_Y_from_codes
             (SOURCES_initial sample_countries) sample_context "test s1" (Some kw_POP)
             true empty_world in
  r.1 = Ok [Key_ny "pop"; add_tag (Key_ny "pop") "y0 indexed"]
  /\ graph (comp r.2) !! add_tag (Key_ny "pop") "DEMO" = Some (TSource demo_s1).
Proof.
  intros r.
  pose proof (prepare_computer_wires sample_get_codes sample_Y_from_codes
                (SOURCES_initial sample_countries) sample_context "test s1"
                (Some kw_POP) true empty_world demo_s1
                eq_refl (or_intror (conj eq_refl eq_refl))
                ltac:(discriminate) ltac:(discriminate)) as H.
  cbv zeta in H. destruct H as (H1 & H2 & _). split; [exact H1|exact H2].
Defined.

(** Why the id of the provider matters: the task of the raw data is
    replaced by the interpolation when the id is empty, and by the indexing
    when the id is "y0 indexed", because the keys coincide. *)
Lemma prepare_computer_id_collision :
  let run cls :=
    prepare_computer sample_get_codes sample_Y_from_codes [(cls_id cls, cls)]
      sample_context "anything" (Some kw_POP) true empty_world in
  graph (comp (run NoIdSource).2) !! add_tag (Key_ny "pop") (cls_id NoIdSource)
  = Some (TOp "interpolate" [add_tag (Key_ny "pop") "agg"; k_y_coords]
            [("kwargs", KwDict [("fill_value", "extrapolate")])])
  /\ graph (comp (run IndexedIdSource).2)
       !! add_tag (Key_ny "pop") (cls_id IndexedIdSource)
     = Some (TOp "index_to" [Key_ny "pop"; k_y0_coord] []).
Proof. split; reflexivity. Qed.

(** C1 (as stated) fails: with [strict] on, as it is by default, and a
    Computer that already holds "n::codes", the request that [DemoSource]
    accepts ends in [KeyExistsError]; no key is returned and no task of
    the data flow is added. *)
Lemma prepare_computer_strict_existing_key :
  let r := prepare_computer sample_get_codes sample_Y_from_codes
             (SOURCES_initial sample_countries) sample_context "test s1" (Some kw_POP)
             true world_with_codes in
  accept "test s1" kw_POP (DemoSource sample_countries) = Some demo_s1
  /\ r.1 = Raise (KeyExistsError "n::codes")
  /\ graph (comp r.2) = graph (comp world_with_codes)
  /\ graph (comp r.2) !! add_tag (Key_ny "pop") "DEMO" = None.
Proof. cbv zeta. repeat split; reflexivity. Qed.

Lemma prepare_computer_no_source_witness :
  let r := prepare_computer sample_get_codes sample_Y_from_codes
             (SOURCES_initial sample_countries) sample_context "ssp SSP2" (Some kw_POP)
             true empty_world in
  r.1 = Raise (ValueError "No source found that can handle ssp SSP2")
  /\ comp r.2 = comp empty_world.
Proof.
  intros r.
  pose proof (prepare_computer_no_source sample_get_codes sample_Y_from_codes
                (SOURCES_initial sample_countries) sample_context "ssp SSP2"
                (Some kw_POP) true empty_world
                ltac:(repeat constructor)) as H.
  cbv zeta in H. destruct H as (H1 & H2 & _). split; [exact H1|exact H2].
Defined.

(** A registry in which a permissive class comes first, [DemoSource]
    second and a class whose constructor fails with [TypeError] last. *)
Lemma lookup_keeps_last_accepting_class_witness :
  let SOURCES := [("ANY", AnySource); ("DEMO", DemoSource sample_countries);
                  ("BROKEN", BrokenSource)] in
  is_Some (accept "test s1" kw_POP AnySource)
  /\ try_sources (SOURCES.*2) "test s1" kw_POP None empty_world
     = (Ok (Some demo_s1), mkWorld (comp empty_world) [] ["ANY"; "DEMO"; "BROKEN"]).
Proof.
  intros SOURCES. split; [by eexists|].
  pose proof (lookup_keeps_last_accepting_class sample_get_codes sample_Y_from_codes
                SOURCES sample_context "test s1" (Some kw_POP) true empty_world
                [AnySource] [BrokenSource] (DemoSource sample_countries)
                (<["v" := "Population"]> {["s" := "s1"]})
                eq_refl eq_refl ltac:(repeat constructor)) as H.
  cbv zeta in H. destruct H as (H1 & _). exact H1.
Defined.



End ExoDataExamples.

Section Registry.
Import ExoData.
Implicit Types (cls : SourceClass) (SOURCES : list (string * SourceClass)).

Lemma register_source_absent cls SOURCES :
  cls_id cls ∉ SOURCES.*1 ->
  register_source cls SOURCES = (Ok cls, SOURCES ++ [(cls_id cls, cls)]).
Proof.
  intros H. unfold register_source, in_registry.
  by rewrite bool_decide_eq_false_2.
Qed.

Lemma register_source_present cls SOURCES :
  cls_id cls ∈ SOURCES.*1 ->
  register_source cls SOURCES
  = (Raise (ValueError ("already registered for id " +:+ cls_id cls)), SOURCES).
Proof.
  intros H. unfold register_source, in_registry.
  by rewrite bool_decide_eq_true_2.
Qed.

Lemma register_source_NoDup cls SOURCES :
  NoDup (SOURCES.*1) -> NoDup ((register_source cls SOURCES).2.*1).
Proof.
  intros Hnd. destruct (decide (cls_id cls ∈ SOURCES.*1)) as [Hin|Hout].
  - by rewrite register_source_present.
  - rewrite register_source_absent by done. cbn.
    rewrite fmap_app. apply NoDup_app. split; [done|]. split.
    + intros x Hx. cbn. rewrite list_elem_of_singleton. by intros ->.
    + cbn. apply NoDup_singleton.
Qed.

Lemma register_all_NoDup (clss : list SourceClass) SOURCES :
  NoDup (SOURCES.*1) -> NoDup ((register_all clss SOURCES).*1).
Proof.
  revert SOURCES. induction clss as [|c rest IH]; intros SOURCES Hnd; [done|].
  cbn. apply IH. by apply register_source_NoDup.
Qed.

Lemma NoDup_fst_functional SOURCES id (c1 c2 : SourceClass) :
  NoDup (SOURCES.*1) -> (id, c1) ∈ SOURCES -> (id, c2) ∈ SOURCES -> c1 = c2.
Proof.
  induction SOURCES as [|[i c] rest IH]; intros Hnd H1 H2.
  - by apply elem_of_nil in H1.
  - cbn in Hnd. apply NoDup_cons in Hnd as [Hi Hnd].
    apply elem_of_cons in H1 as [E1|H1]; apply elem_of_cons in H2 as [E2|H2];
      simplify_eq.
    + done.
    + exfalso. apply Hi. apply list_elem_of_fmap. by exists (i, c2).
    + exfalso. apply Hi. apply list_elem_of_fmap. by exists (i, c1).
    + by apply IH.
Qed.

Lemma registry_get_snoc SOURCES cls :
  cls_id cls ∉ SOURCES.*1 ->
  registry_get (cls_id cls) (SOURCES ++ [(cls_id cls, cls)]) = Some cls.
Proof.
  induction SOURCES as [|[i c] rest IH]; cbn; intros Hout.
  - by rewrite bool_decide_eq_true_2.
  - rewrite bool_decide_eq_false_2.
    + apply IH. intros ?. apply Hout. by right.
    + intros ->. apply Hout. by left.
Qed.

(** C4.  On a registry with one entry per id, [register_source] appends
    the class under its id and returns it when the id is free, and raises
    [ValueError] without touching the registry when the id is taken; so
    after any sequence of calls the ids are still pairwise different and
    an id stands for one class. *)
Theorem register_source_unique_ids (clss : list SourceClass) SOURCES cls :
  NoDup (SOURCES.*1) ->
  (cls_id cls ∉ SOURCES.*1 ->
     register_source cls SOURCES = (Ok cls, SOURCES ++ [(cls_id cls, cls)])
     /\ registry_get (cls_id cls) (register_source cls SOURCES).2 = Some cls)
  /\ (cls_id cls ∈ SOURCES.*1 ->
        exists msg, register_source cls SOURCES = (Raise (ValueError msg), SOURCES))
  /\ NoDup ((register_all clss SOURCES).*1)
  /\ (forall id c1 c2,
        (id, c1) ∈ register_all clss SOURCES ->
        (id, c2) ∈ register_all clss SOURCES -> c1 = c2).
Proof.
  intros Hnd. split; [|split; [|split]].
  - intros Hout. rewrite register_source_absent by done.
    split; [done|]. by apply registry_get_snoc.
  - intros Hin. rewrite register_source_present by done. eauto.
  - by apply register_all_NoDup.
  - intros id c1 c2. apply NoDup_fst_functional. by apply register_all_NoDup.
Qed.

Lemma register_source_unique_ids_witness :
  register_source AnySource (SOURCES_initial sample_countries)
  = (Ok AnySource, [("DEMO", DemoSource sample_countries); ("ANY", AnySource)])
  /\ (exists msg,
        register_source (DemoSource sample_countries) (SOURCES_initial sample_countries)
        = (Raise (ValueError msg), SOURCES_initial sample_countries))
  /\ NoDup ((register_all [DemoSource sample_countries; AnySource;
                           DemoSource sample_countries] []).*1).
Proof.
  assert (Hnd : NoDup ((SOURCES_initial sample_countries).*1)).
  { rewrite SOURCES_initial_eq. apply NoDup_singleton. }
  pose proof (register_source_unique_ids [] (SOURCES_initial sample_countries)
                AnySource Hnd) as (H1 & _).
  pose proof (register_source_unique_ids [] (SOURCES_initial sample_countries)
                (DemoSource sample_countries) Hnd) as (_ & H2 & _).
  pose proof (register_source_unique_ids
                [DemoSource sample_countries; AnySource; DemoSource sample_countries]
                [] AnySource (NoDup_nil_2 (A:=string))) as (_ & _ & H3 & _).
  split; [|split; [|exact H3]].
  - apply H1. rewrite SOURCES_initial_eq. cbn.
    rewrite list_elem_of_singleton. discriminate.
  - apply H2. rewrite SOURCES_initial_eq. cbn.
    apply list_elem_of_singleton. reflexivity.
Defined.

End Registry.

Section DemoSourceFacts.
Import ExoData.
Variable countries : list string.

(** What [select] leaves of the dimensions of the demo data. *)
Lemma DemoSource_call_dims (indexers : gmap string string) q :
  indexers !! "n" = None -> indexers !! "y" = None ->
  is_Some (indexers !! "s") -> is_Some (indexers !! "v") ->
  DemoSource_call countries indexers = Ok q ->
  q_dims q = ["n"; "y"].
Proof.
  intros Hn Hy [s Hs] [v Hv]. unfold DemoSource_call, select.
  destruct (bad_label _ _); [done|]. intros [= <-]. cbn.
  repeat case_decide; congruence.
Qed.

(** For a scenario of the demo data and a measure of [MEASURES], the
    constructor succeeds and the call gives a quantity whose dimensions
    are exactly n and y. *)
Lemma DemoSource_valid_requests :
  forallb (fun scenario =>
             forallb (demo_request_ok countries scenario) MEASURES)
    ["s0"; "s1"; "s2"; "s3"; "s4"] = true.
Proof. vm_compute. reflexivity. Qed.

Lemma DemoSource_valid_request (scenario measure : string) :
  scenario ∈ ["s0"; "s1"; "s2"; "s3"; "s4"] ->
  measure ∈ MEASURES ->
  exists indexers q,
    DemoSource_init ("test " +:+ scenario) {["measure" := measure]} = Ok indexers
    /\ DemoSource_call countries indexers = Ok q
    /\ q_dims q = ["n"; "y"].
Proof.
  intros Hs Hm. pose proof DemoSource_valid_requests as H.
  rewrite forallb_forall in H. apply list_elem_of_In, H in Hs.
  rewrite forallb_forall in Hs. apply list_elem_of_In, Hs in Hm.
  unfold demo_request_ok in Hm.
  destruct (DemoSource_init _ _) as [indexers|]; [|done].
  exists indexers.
  destruct (DemoSource_call _ _) as [q|]; [|done].
  exists q. by apply bool_decide_eq_true in Hm.
Qed.

(** C3 fails on [DemoSource]: the constructor accepts "test s9" although
    the demo data only has the scenarios s0 to s4, and the call of the
    accepted object raises [KeyError] instead of returning a quantity;
    [prepare_computer] nevertheless puts that object in the graph. *)
Theorem DemoSource_accepts_unknown_scenario :
  exists indexers,
    DemoSource_init "test s9" kw_POP = Ok indexers
    /\ accept "test s9" kw_POP (DemoSource countries)
       = Some (mkSourceObj (DemoSource countries) indexers)
    /\ call (mkSourceObj (DemoSource countries) indexers) = Raise (KeyError "s9")
    /\ has_label (random_data countries) "s" "s9" = false.
Proof.
  eexists. split; [reflexivity|]. split; [reflexivity|].
  split; by vm_compute.
Qed.

End DemoSourceFacts.

(** * Properties of model/water/data/water_for_ppl.py *)
Section CoolingFraction.
Import WaterForPpl.
Open Scope Q_scope.

(** C6 (as stated) fails: for a technology that is not a heat plant an
    input value of 1, which is at least 1, gives the cooling fraction
    1 - 0.1 - 1 = -0.1. *)
Lemma cooling_fr_negative_at_one :
  1 <= ic_value coal_ppl_unit_input
  /\ contains "hpl" (index coal_ppl_unit_input) = false
  /\ cooling_fr coal_ppl_unit_input == - (1 # 10)
  /\ cooling_fr coal_ppl_unit_input < 0
  /\ ref_cooling_fraction (ic_value coal_ppl_unit_input) < 0.
Proof. repeat split; vm_compute; congruence. Qed.

(** C6 (as amended).  With exact arithmetic, the cooling fraction is not
    negative exactly when the input value is at least 1 for a heat plant
    and at least 10/9 for any other technology; the fraction computed on
    the scenario's inputs, [value * 0.9 - 1], likewise from 10/9 on. *)
Theorem cooling_fr_nonneg_iff (x : InputCool) :
  (0 <= cooling_fr x <-> cooling_threshold x <= ic_value x)
  /\ (0 <= ref_cooling_fraction (ic_value x) <-> 10 # 9 <= ic_value x).
Proof.
  unfold cooling_fr, cooling_threshold, ref_cooling_fraction.
  destruct (contains "hpl" (index x)); repeat split; intros H; lra.
Qed.

End CoolingFraction.

Section ParentTechnology.
Import WaterForPpl.

Lemma append_cons (d : ascii) (a b : string) :
  String d a +:+ b = String d (a +:+ b).
Proof. reflexivity. Qed.

Lemma append_nil (b : string) : "" +:+ b = b.
Proof. reflexivity. Qed.

Lemma append_snoc (a b : string) (c : ascii) :
  (a +:+ String c "") +:+ b = a +:+ String c b.
Proof.
  induction a as [|d a IH]; [done|]. rewrite !append_cons. by f_equal.
Qed.

Lemma append_empty_r (a : string) : a +:+ "" = a.
Proof. induction a as [|d a IH]; [done|]. rewrite append_cons. by f_equal. Qed.

Lemma find_from_shift (sep s : string) (i : nat) :
  find_from sep s i = (fun n => i + n) <$> find_from sep s 0.
Proof.
  revert i. induction s as [|c s IH]; intros i; cbn [find_from].
  - destruct (String.prefix sep ""); cbn; [f_equal; lia|done].
  - destruct (String.prefix sep (String c s)); cbn; [f_equal; lia|].
    rewrite (IH (S i)), (IH 1). destruct (find_from sep s 0); cbn; [f_equal; lia|done].
Qed.

Lemma contains_cons_false (sep : string) (c : ascii) (s : string) :
  contains sep (String c s) = false ->
  String.prefix sep (String c s) = false /\ contains sep s = false.
Proof.
  unfold contains, find. cbn [find_from].
  destruct (String.prefix sep (String c s)); [done|].
  rewrite find_from_shift. by destruct (find_from sep s 0).
Qed.

Lemma prefix_nil (s : string) : String.prefix "" s = true.
Proof. by destruct s. Qed.

Lemma prefix_one (c d : ascii) (s : string) :
  String.prefix (String c "") (String d s) = bool_decide (c = d).
Proof.
  cbn [String.prefix]. destruct (ascii_dec c d).
  - by rewrite prefix_nil, bool_decide_eq_true_2.
  - by rewrite bool_decide_eq_false_2.
Qed.

(** The first two characters decide whether "__" starts here; what
    follows a parent (one or two underscores, then anything) does not
    matter as long as the parent has a character left. *)
Lemma prefix_sep_parent (c : ascii) (p rest : string) :
  String.prefix "__" (String c (p +:+ "_" +:+ rest))
  = String.prefix "__" (String c (p +:+ "_")).
Proof.
  cbn [String.prefix]. destruct (ascii_dec "_" c); [|done].
  destruct p as [|d p].
  - rewrite !append_nil, append_cons. by rewrite !prefix_one.
  - rewrite !append_cons. by rewrite !prefix_one.
Qed.

Lemma prefix_sep_sep (rest : string) : String.prefix "__" ("__" +:+ rest) = true.
Proof.
  change ("__" +:+ rest) with (String "_" (String "_" rest)).
  cbn [String.prefix]. destruct (ascii_dec "_" "_"); [|done]. apply prefix_nil.
Qed.

Lemma split_go_sep (rest cur : string) :
  split_go "__" ("__" +:+ rest) 0 cur = cur :: split_go "__" rest 0 "".
Proof.
  pose proof (prefix_sep_sep rest) as H.
  change ("__" +:+ rest) with (String "_" (String "_" rest)) in *.
  cbn [split_go]. by rewrite H.
Qed.

(** Reading a parent that holds no separator only extends the piece. *)
Lemma split_go_parent (p rest cur : string) :
  contains "__" (p +:+ "_") = false ->
  split_go "__" (p +:+ "__" +:+ rest) 0 cur
  = (cur +:+ p) :: split_go "__" rest 0 "".
Proof.
  revert cur. induction p as [|c p IH]; intros cur Hp.
  - rewrite append_empty_r, append_nil. apply split_go_sep.
  - rewrite append_cons in Hp. apply contains_cons_false in Hp as [Hpre Hp].
    change (String c p +:+ "__" +:+ rest) with (String c (p +:+ "_" +:+ ("_" +:+ rest))).
    cbn [split_go]. rewrite prefix_sep_parent.
    change (String c p +:+ "_") with (String c (p +:+ "_")) in Hpre. rewrite Hpre.
    change (p +:+ "_" +:+ ("_" +:+ rest)) with (p +:+ "__" +:+ rest).
    rewrite IH by done. by rewrite append_snoc.
Qed.

Lemma split_go_no_separator (s cur : string) :
  contains "__" s = false -> split_go "__" s 0 cur = [cur +:+ s].
Proof.
  revert cur. induction s as [|c s IH]; intros cur Hs.
  - by rewrite append_empty_r.
  - apply contains_cons_false in Hs as [Hpre Hs].
    cbn [split_go]. rewrite Hpre, IH by done. by rewrite append_snoc.
Qed.

Lemma split_cooling_name (p c : string) :
  one_separator p c -> split "__" (cooling_name p c) = [p; c].
Proof.
  intros [Hp Hc]. unfold split, cooling_name.
  rewrite split_go_parent by done. rewrite split_go_no_separator by done.
  by rewrite !append_nil.
Qed.

Lemma find_cooling_name (p c : string) :
  contains "__" (p +:+ "_") = false ->
  find "__" (cooling_name p c) = Some (String.length p).
Proof.
  unfold find, cooling_name. induction p as [|d p IH]; intros Hp.
  { rewrite append_nil. pose proof (prefix_sep_sep c) as H.
    change ("__" +:+ c) with (String "_" (String "_" c)) in *.
    cbn [find_from]. by rewrite H. }
  rewrite append_cons in Hp. apply contains_cons_false in Hp as [Hpre Hp].
  change (String d p +:+ "__" +:+ c) with (String d (p +:+ "_" +:+ ("_" +:+ c))).
  cbn [find_from]. rewrite prefix_sep_parent.
  rewrite Hpre. rewrite find_from_shift.
  change (p +:+ "_" +:+ ("_" +:+ c)) with (p +:+ "__" +:+ c).
  by rewrite IH.
Qed.

Lemma take_str_append (p s : string) : take_str (String.length p) (p +:+ s) = p.
Proof.
  induction p as [|d p IH]; [by destruct s|]. rewrite append_cons. cbn. by f_equal.
Qed.

Lemma before_separator_cooling_name (p c : string) :
  contains "__" (p +:+ "_") = false -> before_separator (cooling_name p c) = p.
Proof.
  intros Hp. unfold before_separator, partition.
  rewrite find_cooling_name by done. cbn. apply take_str_append.
Qed.

End ParentTechnology.

Section ParentTechnologyGeneral.
Import WaterForPpl.

Lemma prefix_sep_inv (c : ascii) (r : string) :
  String.prefix "__" (String c r) = true ->
  c = "_"%char /\ exists rest, r = String "_" rest.
Proof.
  cbn [String.prefix]. destruct (ascii_dec "_" c) as [<-|]; [|done].
  destruct r as [|d rest]; [done|]. rewrite prefix_one.
  intros ->%bool_decide_eq_true. split; [done|by exists rest].
Qed.

Lemma find_cons (c : ascii) (r : string) :
  find "__" (String c r)
  = if String.prefix "__" (String c r) then Some 0%nat else S <$> find "__" r.
Proof.
  unfold find. cbn [find_from].
  destruct (String.prefix "__" (String c r)); [done|]. by rewrite find_from_shift.
Qed.

(** Splitting reads up to the first separator and starts again after it. *)
Lemma split_go_find (s cur : string) :
  split_go "__" s 0 cur
  = match find "__" s with
    | Some i => (cur +:+ take_str i s) :: split_go "__" (drop_str (i + 2) s) 0 ""
    | None => [cur +:+ s]
    end.
Proof.
  revert cur. induction s as [|c r IH]; intros cur.
  { cbn. by rewrite append_empty_r. }
  cbn [split_go]. rewrite find_cons.
  destruct (String.prefix "__" (String c r)) eqn:Hpre.
  - apply prefix_sep_inv in Hpre as [-> [rest ->]].
    cbn [take_str drop_str Nat.add]. rewrite append_empty_r.
    change (String.length "__" - 1)%nat with 1%nat. by cbn [split_go].
  - rewrite IH. destruct (find "__" r) as [i|]; cbn [fmap option_fmap option_map].
    + cbn [take_str drop_str Nat.add]. by rewrite append_snoc.
    + by rewrite append_snoc.
Qed.

Lemma split_find (x : string) :
  split "__" x
  = if has_separator x
    then before_separator x :: split "__" (after_separator x)
    else [x].
Proof.
  unfold split, has_separator, contains, before_separator, after_separator, partition.
  rewrite split_go_find. destruct (find "__" x) as [i|]; [|done].
  cbn. by rewrite append_nil.
Qed.

Lemma before_separator_without (x : string) :
  has_separator x = false -> before_separator x = x.
Proof.
  unfold has_separator, contains, before_separator, partition.
  by destruct (find "__" x).
Qed.

Lemma second_separator_has (x : string) :
  second_separator x = true -> has_separator x = true.
Proof.
  unfold second_separator, has_separator, after_separator, contains, partition.
  by destruct (find "__" x).
Qed.

(** The first component of the split is the part before the first
    separator, whatever the name. *)
Lemma head_split (x : string) : head (split "__" x) = Some (before_separator x).
Proof.
  rewrite split_find. destruct (has_separator x) eqn:E; [done|].
  by rewrite before_separator_without.
Qed.

Lemma length_split (x : string) :
  length (split "__" x)
  = if has_separator x
    then if second_separator x
         then S (S (length (split "__" (after_separator (after_separator x)))))
         else 2%nat
    else 1%nat.
Proof.
  rewrite split_find. destruct (has_separator x); [|done]. cbn [length].
  unfold second_separator. rewrite split_find. unfold has_separator.
  by destruct (contains "__" (after_separator x)).
Qed.

Lemma length_split_pos (x : string) : (1 <= length (split "__" x))%nat.
Proof. rewrite length_split. repeat case_match; lia. Qed.

Lemma split_width_cons (n : string) (names : list string) :
  split_width (n :: names) = Nat.max (length (split "__" n)) (split_width names).
Proof. reflexivity. Qed.

Lemma split_width_ge (names : list string) (n : string) :
  n ∈ names -> (length (split "__" n) <= split_width names)%nat.
Proof.
  induction names as [|m names IH]; [by intros ?%elem_of_nil|].
  rewrite split_width_cons. intros [->|Hn%IH]%elem_of_cons; lia.
Qed.

Lemma split_width_le (names : list string) (k : nat) :
  (forall n, n ∈ names -> (length (split "__" n) <= k)%nat) ->
  (split_width names <= k)%nat.
Proof.
  induction names as [|m names IH]; intros Hall; [cbn; lia|].
  rewrite split_width_cons.
  pose proof (Hall m ltac:(by left)).
  pose proof (IH (fun n Hn => Hall n ltac:(by right))). lia.
Qed.

(** The three outcomes of deriving the column of parent technologies. *)
Lemma parent_tech_column_twice (names : list string) :
  Exists (fun n => second_separator n = true) names ->
  parent_tech_column names
  = Raise (ValueError "Cannot set a DataFrame with multiple columns").
Proof.
  intros (n & Hn & Hsec)%Exists_exists.
  pose proof (split_width_ge names n Hn) as Hge.
  rewrite length_split, (second_separator_has n Hsec), Hsec in Hge.
  unfold parent_tech_column. destruct names as [|m names]; [by apply elem_of_nil in Hn|].
  pose proof (length_split_pos (after_separator (after_separator n))) as Hpos.
  revert Hge. destruct (split_width (m :: names)) as [|[|[|k]]]; intros Hge; [lia..|done].
Qed.

Lemma parent_tech_column_none (names : list string) :
  names <> [] -> Forall (fun n => has_separator n = false) names ->
  parent_tech_column names = Raise (KeyError "[1] not found in axis").
Proof.
  intros Hne Hall. rewrite Forall_forall in Hall.
  assert (Hle : (split_width names <= 1)%nat).
  { apply split_width_le. intros n Hn. by rewrite length_split, (Hall n Hn). }
  unfold parent_tech_column. destruct names as [|m names]; [done|].
  revert Hle. destruct (split_width (m :: names)) as [|[|k]]; intros Hle; [done..|lia].
Qed.

Lemma parent_tech_column_once (names : list string) :
  Exists (fun n => has_separator n = true) names ->
  Forall (fun n => second_separator n = false) names ->
  parent_tech_column names = Ok (map before_separator names).
Proof.
  intros (n & Hn & Hsep)%Exists_exists Hall. rewrite Forall_forall in Hall.
  assert (Hle : (split_width names <= 2)%nat).
  { apply split_width_le. intros m Hm. rewrite length_split, (Hall m Hm).
    case_match; lia. }
  pose proof (split_width_ge names n Hn) as Hge.
  rewrite length_split, Hsep, (Hall n Hn) in Hge.
  unfold parent_tech_column. destruct names as [|m names]; [by apply elem_of_nil in Hn|].
  revert Hle Hge.
  destruct (split_width (m :: names)) as [|[|[|k]]]; intros Hle Hge; [lia..| |lia].
  f_equal. apply map_ext. intros x. by rewrite head_split.
Qed.

(** The column is derived in the third case only. *)
Lemma parent_tech_column_Ok (names parents : list string) :
  parent_tech_column names = Ok parents ->
  parents = map before_separator names /\
  (names = [] \/
   (Exists (fun n => has_separator n = true) names
    /\ Forall (fun n => second_separator n = false) names)).
Proof.
  intros E. destruct (decide (names = [])) as [->|Hne].
  { injection E as <-. split; [done|by left]. }
  destruct (decide (Exists (fun n => second_separator n = true) names)) as [Hsec|Hsec].
  { by rewrite parent_tech_column_twice in E. }
  destruct (decide (Exists (fun n => has_separator n = true) names)) as [Hsep|Hsep].
  - assert (Hall : Forall (fun n => second_separator n = false) names).
    { apply Forall_forall. intros n Hn. destruct (second_separator n) eqn:E2; [|done].
      destruct Hsec. apply Exists_exists. by exists n. }
    rewrite parent_tech_column_once in E by done. injection E as <-.
    split; [done|]. right. by split.
  - rewrite parent_tech_column_none in E; [done..|].
    apply Forall_forall. intros n Hn. destruct (has_separator n) eqn:E1; [|done].
    destruct Hsep. apply Exists_exists. by exists n.
Qed.

Lemma zip_with_column {A B} (f : A -> B) (l : list A) :
  zip l (map f l) = map (fun x => (x, f x)) l.
Proof. induction l as [|x l IH]; cbn; [done|]. by rewrite IH. Qed.

(** C7 (as amended).  [cool_tech] and [non_cooling_tec] derive the parent
    technologies in the same way, for the whole table at once.  Whenever the column is
    derived, the parent of every cooling technology record is the part of
    its name before the first "__", which is the first component of the
    split of the name on "__"; for a name of the form
    <parent>__<coolingtype> it is the parent the name was built from.  The
    column is derived exactly when the table has no cooling technology, or
    at least one of their names holds a separator and none holds a second
    one; a name with a second separator makes the derivation end in
    ValueError, and names that are all without separator make it end in
    KeyError, for every record of the table. *)
Theorem parent_tech_first_component (df : list TechRow) :
  let cooling_df := filter (fun r => technology_group r = "cooling") df in
  let names := map technology_name cooling_df in
  non_cooling_tec_cooling_df df = cool_tech_cooling_df df
  /\ (forall rows, cool_tech_cooling_df df = Ok rows ->
        rows = map (fun r => (r, before_separator (technology_name r))) cooling_df
        /\ Forall (fun rp : TechRow * string =>
                     head (split "__" (technology_name rp.1)) = Some rp.2
                     /\ forall p c, technology_name rp.1 = cooling_name p c ->
                                    one_separator p c -> rp.2 = p) rows)
  /\ ((exists rows, cool_tech_cooling_df df = Ok rows) <->
        names = [] \/
        (Exists (fun n => has_separator n = true) names
         /\ Forall (fun n => second_separator n = false) names))
  /\ (Exists (fun n => second_separator n = true) names ->
        cool_tech_cooling_df df
        = Raise (ValueError "Cannot set a DataFrame with multiple columns"))
  /\ (names <> [] -> Forall (fun n => has_separator n = false) names ->
        cool_tech_cooling_df df = Raise (KeyError "[1] not found in axis")).
Proof.
  intros cooling_df names.
  assert (Hrows : zip cooling_df (map before_separator names)
                  = map (fun r => (r, before_separator (technology_name r))) cooling_df).
  { subst names. rewrite <- list_fmap_compose. apply zip_with_column. }
  unfold cool_tech_cooling_df, non_cooling_tec_cooling_df.
  fold cooling_df. fold names.
  split; [done|]. split; [|split; [|split]].
  - intros rows E.
    destruct (parent_tech_column names) as [parents|e] eqn:Ecol; [|done].
    injection E as <-. apply parent_tech_column_Ok in Ecol as [-> _].
    rewrite Hrows. split; [done|].
    apply Forall_fmap, Forall_forall. intros r _. cbn. split; [apply head_split|].
    intros p c -> [Hp _]. by apply before_separator_cooling_name.
  - split.
    + intros [rows E].
      destruct (parent_tech_column names) as [parents|e] eqn:Ecol; [|done].
      by apply parent_tech_column_Ok in Ecol as [_ H].
    + intros [E|[Hsep Hall]].
      * rewrite E. by eexists.
      * rewrite parent_tech_column_once by done. by eexists.
  - intros Hsec. by rewrite parent_tech_column_twice.
  - intros Hne Hall. by rewrite parent_tech_column_none.
Qed.

End ParentTechnologyGeneral.

Section ParentTechnologyExample.
Import WaterForPpl.

(** A name without separator beside a well-formed one: both get the part
    before the first separator. *)
Lemma parent_tech_first_component_witness :
  cool_tech_cooling_df sample_techs_plain
  = Ok [(mkTechRow "coal_ppl__ot_fresh" "cooling" "freshwater_supply", "coal_ppl");
        (mkTechRow "solo" "cooling" "air", "solo")]
  /\ non_cooling_tec_cooling_df sample_techs_plain
     = cool_tech_cooling_df sample_techs_plain.
Proof.
  destruct (parent_tech_first_component sample_techs_plain) as (H1 & H2 & H3 & _).
  split; [|exact H1].
  destruct (proj2 H3) as [rows Hrows].
  { right. split.
    - apply Exists_cons_hd. reflexivity.
    - repeat constructor. }
  rewrite Hrows. f_equal. exact (proj1 (H2 rows Hrows)).
Defined.

(** A name with two separators in the table: the derivation raises, also
    for the well-formed name beside it. *)
Lemma parent_tech_raises_for_well_formed :
  cool_tech_cooling_df sample_techs_twice
  = Raise (ValueError "Cannot set a DataFrame with multiple columns")
  /\ non_cooling_tec_cooling_df sample_techs_twice
     = Raise (ValueError "Cannot set a DataFrame with multiple columns")
  /\ In (mkTechRow "gas_cc__air" "cooling" "air") sample_techs_twice
  /\ well_formed "gas_cc__air".
Proof.
  repeat split; [reflexivity..| |].
  - right. left. reflexivity.
  - exists "gas_cc", "air". repeat split; reflexivity.
Defined.

End ParentTechnologyExample.

Section HeapFacts.
Import WaterForPpl.

Lemma HeapM_bind_eq {A B} (m : HeapM A) (f : A -> HeapM B) (h : Heap) :
  (m ≫= f) h = f (m h).1 (m h).2.
Proof. reflexivity. Qed.

Lemma unchanged_refl (info : ScenarioInfo) (h : Heap) : unchanged info h h.
Proof. by intros l _. Qed.

Lemma unchanged_dom (info : ScenarioInfo) (h h' : Heap) (l : nat) :
  unchanged info h h' -> l ∈ dom h -> l ∈ dom h'.
Proof.
  intros Hun Hl. apply elem_of_dom. rewrite Hun by (by left). by apply elem_of_dom.
Qed.

Lemma unchanged_trans (info : ScenarioInfo) (h1 h2 h3 : Heap) :
  unchanged info h1 h2 -> unchanged info h2 h3 -> unchanged info h1 h3.
Proof.
  intros H12 H23 l Hl. rewrite <- (H12 l Hl). apply H23.
  destruct Hl as [Hl|Hl]; [left; by eapply unchanged_dom|by right].
Qed.

Lemma unchanged_stored (info : ScenarioInfo) (h h' : Heap) :
  unchanged info h h' -> stored_years info h' = stored_years info h.
Proof. intros Hun. unfold stored_years. rewrite Hun; [done|by right]. Qed.

Lemma keeps_objects_bind {A B} (info : ScenarioInfo) (m : HeapM A) (f : A -> HeapM B) :
  keeps_objects info m -> (forall a, keeps_objects info (f a)) ->
  keeps_objects info (m ≫= f).
Proof.
  intros Hm Hf h. rewrite HeapM_bind_eq. eapply unchanged_trans; [apply Hm|apply Hf].
Qed.

Lemma keeps_objects_ret {A} (info : ScenarioInfo) (a : A) : keeps_objects info (mret a).
Proof. intros h. apply unchanged_refl. Qed.

Lemma keeps_objects_deref (info : ScenarioInfo) (l : nat) : keeps_objects info (deref l).
Proof. intros h. apply unchanged_refl. Qed.

Lemma hoare_bind {A B} (P : Heap -> Prop) (Q : A -> Heap -> Prop) (R : B -> Heap -> Prop)
    (m : HeapM A) (f : A -> HeapM B) :
  hoare P m Q -> (forall a, hoare (Q a) (f a) R) -> hoare P (m ≫= f) R.
Proof. intros Hm Hf h HP. rewrite HeapM_bind_eq. by apply Hf, Hm. Qed.

End HeapFacts.

(** * cool_tech when every access to info.Y builds a new list *)
Section CopiedYears.
Import WaterForPpl.
Variable get_Y : ScenarioInfo -> HeapM nat.
Variable broadcast : list (string * list Cell) -> DataFrame -> DataFrame.
Variable same_node : DataFrame -> DataFrame.
Variable make_matched_dfs : DataFrame -> string -> Cell -> DataFrame.
Hypothesis Hcopy : hands_out_copy get_Y.

Lemma get_Y_copy (info : ScenarioInfo) (h : Heap) :
  ((get_Y info h).1 ∉ dom h)
  /\ (get_Y info h).1 <> year_list info
  /\ (get_Y info h).2 = <[(get_Y info h).1 := stored_years info h]> h.
Proof. destruct (Hcopy info h) as (l & Hnew & Hne & ->). done. Qed.

Lemma keeps_objects_get_Y (info : ScenarioInfo) : keeps_objects info (get_Y info).
Proof.
  intros h l Hl. destruct (get_Y_copy info h) as (Hnew & Hne & ->).
  apply lookup_insert_ne. intros E. rewrite E in *. by destruct Hl.
Qed.

(** Reading [info.Y] gives the model years of the build information. *)
Lemma Y_list_value (info : ScenarioInfo) (h : Heap) :
  ((get_Y info ≫= deref) h).1 = stored_years info h.
Proof.
  rewrite HeapM_bind_eq. destruct (get_Y_copy info h) as (_ & _ & ->).
  unfold deref. cbn. by rewrite lookup_insert_eq.
Qed.

Lemma Y_cells_value (info : ScenarioInfo) (h : Heap) :
  (Y_cells get_Y info h).1 = map CInt (stored_years info h).
Proof.
  unfold Y_cells. rewrite !HeapM_bind_eq. cbn [mret HeapM_ret fst].
  f_equal. apply Y_list_value.
Qed.

Local Ltac keeps_objects_steps :=
  repeat first
    [ apply keeps_objects_get_Y | apply keeps_objects_deref | apply keeps_objects_ret
    | progress lazy zeta
    | apply keeps_objects_bind; [|intros ?] ].

Lemma keeps_objects_Y_cells (info : ScenarioInfo) : keeps_objects info (Y_cells get_Y info).
Proof. unfold Y_cells. keeps_objects_steps. Qed.

(** Lines 512-516: the list that gets 2010 in front is the new list that
    [info.Y] has just built; it ends as the model years with 2010. *)
Lemma add_2010_copy (info : ScenarioInfo) (h : Heap) :
  ((add_2010 get_Y info h).1 ∉ dom h)
  /\ (add_2010 get_Y info h).1 <> year_list info
  /\ (add_2010 get_Y info h).2 !! (add_2010 get_Y info h).1
     = Some (with_2010 (stored_years info h))
  /\ unchanged info h (add_2010 get_Y info h).2.
Proof.
  destruct (get_Y_copy info h) as (Hnew & Hne & E).
  unfold add_2010. rewrite !HeapM_bind_eq. cbn [mret HeapM_ret fst snd].
  set (l := (get_Y info h).1) in *. rewrite E. clearbody l.
  unfold deref. cbn [fst snd]. rewrite lookup_insert_eq.
  change (default [] (Some (stored_years info h))) with (stored_years info h).
  unfold with_2010.
  assert (Hun : unchanged info h (<[l := stored_years info h]> h)).
  { intros l' Hl'. apply lookup_insert_ne. intros E'. rewrite <- E' in Hl'.
    by destruct Hl'. }
  destruct (bool_decide (2010%Z ∈ stored_years info h)); cbn [fst snd mret HeapM_ret].
  - by rewrite lookup_insert_eq.
  - unfold insert_front. cbn [fst snd]. rewrite !lookup_insert_eq.
    repeat split; [done..|].
    intros l' Hl'. rewrite lookup_insert_ne; [by apply Hun|].
    intros E'. rewrite <- E' in Hl'. by destruct Hl'.
Qed.

Lemma keeps_objects_add_2010 (info : ScenarioInfo) : keeps_objects info (add_2010 get_Y info).
Proof. intros h. apply add_2010_copy. Qed.

Lemma keeps_objects_cooling_output (info : ScenarioInfo) :
  keeps_objects info (cooling_output get_Y broadcast same_node info).
Proof. unfold cooling_output. keeps_objects_steps. Qed.

Lemma keeps_objects_nexus_output (info : ScenarioInfo) (df_node : list Basin) :
  keeps_objects info (nexus_output get_Y broadcast same_node info df_node).
Proof. unfold nexus_output, Y_cells. keeps_objects_steps. Qed.

Lemma keeps_objects_nexus_results (info : ScenarioInfo) (data : CoolData)
    (results : gmap string DataFrame) :
  keeps_objects info (nexus_results get_Y broadcast same_node info data results).
Proof. unfold nexus_results, nexus_output, Y_cells. keeps_objects_steps. Qed.

(** What follows line 516 finds the list with 2010 where it was left. *)
Lemma hoare_keeps_objects {A} (info : ScenarioInfo) (h0 : Heap) (year : nat)
    (ys : list Z) (m : HeapM A) :
  keeps_objects info m ->
  hoare (fun h => unchanged info h0 h /\ h !! year = Some ys) m
        (fun _ h' => unchanged info h0 h' /\ h' !! year = Some ys).
Proof.
  intros Hm h [Hun Hyear]. split.
  - eapply unchanged_trans; [exact Hun|apply Hm].
  - rewrite <- Hyear. apply Hm. left. apply elem_of_dom. by rewrite Hyear.
Qed.

(** C9 (as amended).  [cool_tech] puts 2010 in front of a list in place,
    but the list is the one that the access [info.Y] of line 512 has
    built, not the year list of the context: when every access to
    [info.Y] builds a new list, every object that existed before the call
    and the model years of [context["water build info"]] are the same
    after it, so that a later reader of [info.Y] gets the years it would
    have got before; the list with 2010 in front is a new object. *)
Theorem cool_tech_keeps_context_years (context : Context) (data : CoolData) (h : Heap) :
  let info := water_build_info context in
  let h' := (cool_tech get_Y broadcast same_node make_matched_dfs context data h).2 in
  (forall l, (l ∈ dom h) \/ l = year_list info -> h' !! l = h !! l)
  /\ stored_years info h' = stored_years info h
  /\ (Y_cells get_Y info h').1 = map CInt (stored_years info h)
  /\ exists year,
       (year ∉ dom h) /\ year <> year_list info
       /\ h' !! year = Some (with_2010 (stored_years info h)).
Proof.
  intros info h'.
  assert (Hpost : hoare (fun h0 => h0 = h)
            (cool_tech get_Y broadcast same_node make_matched_dfs context data)
            (fun _ h' => unchanged info h h' /\
               exists year, (year ∉ dom h) /\ year <> year_list info
                 /\ h' !! year = Some (with_2010 (stored_years info h)))).
  { unfold cool_tech. lazy zeta. fold info.
    eapply hoare_bind.
    { instantiate (1 := fun _ h1 => unchanged info h h1).
      intros h0 ->. apply keeps_objects_Y_cells. }
    intros Y_inv. eapply hoare_bind.
    { instantiate (1 := fun year h2 =>
        (year ∉ dom h) /\ year <> year_list info /\
        (unchanged info h h2 /\ h2 !! year = Some (with_2010 (stored_years info h)))).
      intros h1 H1. destruct (add_2010_copy info h1) as (Hnew & Hne & Hval & Hun).
      rewrite (unchanged_stored _ _ _ H1) in Hval. repeat split; [|done| |done].
      - intros Hin. apply Hnew. by eapply unchanged_dom.
      - by eapply unchanged_trans. }
    intros year h2 (Hnew & Hne & HR).
    eapply (hoare_keeps_objects info h year) in HR as [Hun Hyear].
    { split; [exact Hun|]. exists year. repeat split; [done..|exact Hyear]. }
    apply keeps_objects_bind; [apply keeps_objects_deref|intros year_now].
    apply keeps_objects_bind.
    - case_bool_decide; [|apply keeps_objects_ret].
      apply keeps_objects_bind; [apply keeps_objects_cooling_output|intros ?].
      apply keeps_objects_ret.
    - intros results.
      case_bool_decide; [apply keeps_objects_nexus_results|apply keeps_objects_ret]. }
  destruct (Hpost h eq_refl) as [Hun Hyear]. fold h' in Hun, Hyear.
  split; [exact Hun|]. split; [by apply unchanged_stored|]. split; [|exact Hyear].
  rewrite Y_cells_value. f_equal. by apply unchanged_stored.
Qed.

End CopiedYears.

Section CoolTechNexus.
Import WaterForPpl.
Variable get_Y : ScenarioInfo -> HeapM nat.
Variable broadcast : list (string * list Cell) -> DataFrame -> DataFrame.
Variable same_node : DataFrame -> DataFrame.
Variable make_matched_dfs : DataFrame -> string -> Cell -> DataFrame.

(** In "nexus" mode [cool_tech] ends with [nexus_results], applied to the
    results gathered so far, in the heap left by lines 512-516. *)
Lemma cool_tech_nexus_tail (context : Context) (data : CoolData) (h : Heap) :
  nexus_set context = "nexus" ->
  let info := water_build_info context in
  exists results,
    cool_tech get_Y broadcast same_node make_matched_dfs context data h
    = nexus_results get_Y broadcast same_node info data results
        (add_2010 get_Y info (Y_cells get_Y info h).2).2.
Proof.
  destruct context as [reg ty ns info]. cbn. intros ->.
  eexists. unfold cool_tech. cbn [nexus_set water_build_info].
  rewrite !HeapM_bind_eq. cbn beta zeta.
  reflexivity.
Qed.

(** [nexus_results] sets the "input" entry to the linking table, whatever
    the entry was; the years are those of the two accesses to [info.Y]
    that follow the assembly of the "output" table. *)
Lemma nexus_results_input (info : ScenarioInfo) (data : CoolData)
    (results : gmap string DataFrame) (h : Heap) :
  let h1 := (nexus_output get_Y broadcast same_node info (df_node data) h).2 in
  let h2 := (Y_cells get_Y info h1).2 in
  (nexus_results get_Y broadcast same_node info data results h).1 !! "input"
  = Some (broadcast [("year_vtg", (Y_cells get_Y info h1).1);
                     ("year_act", (Y_cells get_Y info h2).1)]
            (water_to_en_input (df_node data))).
Proof.
  unfold nexus_results. rewrite !HeapM_bind_eq. cbn beta zeta.
  cbn [fst mret HeapM_ret].
  rewrite !lookup_insert_ne by done. by rewrite lookup_insert_eq.
Qed.

(** In any other mode the "input" entry stays the table of the cooling
    technologies. *)
Lemma cool_tech_cooling_input (context : Context) (data : CoolData) (h : Heap) :
  nexus_set context <> "nexus" ->
  (cool_tech get_Y broadcast same_node make_matched_dfs context data h).1 !! "input"
  = Some (dropna_value (cooling_inputs (map add_cooling_columns (input_cool data)))).
Proof.
  intros Hmode. unfold cool_tech. rewrite !HeapM_bind_eq. cbn beta zeta.
  rewrite (bool_decide_eq_false_2 _ Hmode).
  case_bool_decide; cbn [fst mret HeapM_ret]; rewrite ?HeapM_bind_eq; cbn [fst mret HeapM_ret];
    rewrite !lookup_insert_ne by done; by rewrite lookup_insert_eq.
Qed.

(** The linking table has one row per basin, in the order of the basin
    table. *)
Lemma water_to_en_input_basins (df_node : list Basin) :
  Forall2 links_basin df_node (water_to_en_input df_node).
Proof.
  unfold water_to_en_input. apply Forall2_fmap_r, Forall_Forall2_diag, Forall_forall.
  intros [name region] _. unfold links_basin. by vm_compute.
Qed.

Lemma water_to_en_input_columns (df_node : list Basin) (r : Row) :
  r ∈ water_to_en_input df_node ->
  r !! "technology" = Some (CStr "water_to_en")
  /\ r !! "commodity" = Some (CStr "freshwater_supply_basin")
  /\ r !! "level" = Some (CStr "water_supply_basin").
Proof.
  unfold water_to_en_input. intros Hr.
  apply list_elem_of_fmap in Hr as (b & -> & _). by vm_compute.
Qed.

Lemma input_row_commodity (commodity level unit : string) (x : Cooled) :
  col "commodity" (input_row commodity level unit x) = CStr commodity.
Proof. destruct x as [[] ? ?]. by vm_compute. Qed.

Lemma cooling_inputs_commodity (rows : list Cooled) (r : Row) :
  r ∈ cooling_inputs rows -> col "commodity" r ∈ cooling_commodities.
Proof.
  unfold cooling_inputs, cooling_commodities. rewrite !elem_of_app.
  intros [Hr|[Hr|Hr]]; apply list_elem_of_fmap in Hr as (x & -> & _);
    rewrite input_row_commodity, !elem_of_cons; auto.
Qed.

(** C8.  When the context's [nexus_set] is "nexus", the "input" entry of the
    result of [cool_tech] is the linking table of water_to_en and nothing
    else: the table with one row per basin of the basin delineation
    (technology water_to_en, value 1, commodity freshwater_supply_basin at
    level water_supply_basin, mode, origin node and region named after the
    basin), broadcast over the years that two accesses to [info.Y] give,
    which are the model years of the build information when [info.Y]
    builds a new list on each access.  Each row of the entry has the
    technology water_to_en and the commodity freshwater_supply_basin, so
    that none carries an electricity, freshwater or saline cooling input,
    and no row of the table of cooling inputs assembled before is in it. *)
Theorem cool_tech_nexus_input (context : Context) (data : CoolData) (h : Heap) :
  nexus_set context = "nexus" ->
  keeps_other_columns broadcast ->
  let info := water_build_info context in
  let results := (cool_tech get_Y broadcast same_node make_matched_dfs context data h).1 in
  let cooling := dropna_value (cooling_inputs (map add_cooling_columns (input_cool data))) in
  let basins := water_to_en_input (df_node data) in
  exists Y1 Y2 inp,
    inp = broadcast [("year_vtg", Y1); ("year_act", Y2)] basins
    /\ results !! "input" = Some inp
    /\ (hands_out_copy get_Y ->
        Y1 = map CInt (stored_years info h) /\ Y2 = map CInt (stored_years info h))
    /\ Forall2 links_basin (df_node data) basins
    /\ Forall (fun r : Row =>
                 col "technology" r = CStr "water_to_en"
                 /\ col "commodity" r = CStr "freshwater_supply_basin"
                 /\ col "level" r = CStr "water_supply_basin"
                 /\ col "commodity" r ∉ cooling_commodities) inp
    /\ Forall (fun r : Row => r ∉ inp) cooling.
Proof.
  intros Hmode Hbroadcast info results cooling basins.
  destruct (cool_tech_nexus_tail context data h Hmode) as (results0 & Etail).
  fold info in Etail.
  set (h0 := (add_2010 get_Y info (Y_cells get_Y info h).2).2) in Etail.
  pose proof (nexus_results_input info data results0 h0) as Einput.
  cbv zeta in Einput.
  set (h1 := (nexus_output get_Y broadcast same_node info (df_node data) h0).2) in Einput.
  set (h2 := (Y_cells get_Y info h1).2) in Einput.
  exists (Y_cells get_Y info h1).1, (Y_cells get_Y info h2).1. eexists.
  split; [reflexivity|].
  assert (Hrows : forall r,
             r ∈ broadcast [("year_vtg", (Y_cells get_Y info h1).1);
                            ("year_act", (Y_cells get_Y info h2).1)] basins ->
             col "technology" r = CStr "water_to_en"
             /\ col "commodity" r = CStr "freshwater_supply_basin"
             /\ col "level" r = CStr "water_supply_basin").
  { intros r Hr. destruct (Hbroadcast _ _ _ Hr) as (r0 & Hr0 & Hsame).
    destruct (water_to_en_input_columns _ _ Hr0) as (Ht & Hc & Hl).
    unfold col. rewrite !Hsame; [by rewrite Ht, Hc, Hl|..]; cbn;
      rewrite !elem_of_cons, elem_of_nil; intuition discriminate. }
  split; [|split; [|split; [|split]]].
  - subst results. by rewrite Etail.
  - intros Hcopy.
    assert (H0 : unchanged info h h0).
    { eapply unchanged_trans; [by apply keeps_objects_Y_cells|].
      by apply keeps_objects_add_2010. }
    assert (H1 : unchanged info h h1).
    { eapply unchanged_trans; [exact H0|]. by apply keeps_objects_nexus_output. }
    assert (H2 : unchanged info h h2).
    { eapply unchanged_trans; [exact H1|]. by apply keeps_objects_Y_cells. }
    rewrite !Y_cells_value by done.
    by rewrite (unchanged_stored _ _ _ H1), (unchanged_stored _ _ _ H2).
  - apply water_to_en_input_basins.
  - apply Forall_forall. intros r Hr. destruct (Hrows r Hr) as (Ht & Hc & Hl).
    repeat split; [done..|]. rewrite Hc. unfold cooling_commodities.
    rewrite !elem_of_cons, elem_of_nil. intuition discriminate.
  - apply Forall_forall. intros r Hr Hin.
    apply list_elem_of_filter in Hr as [_ Hr].
    apply cooling_inputs_commodity in Hr.
    destruct (Hrows r Hin) as (_ & Hc & _). rewrite Hc in Hr.
    unfold cooling_commodities in Hr.
    rewrite !elem_of_cons, elem_of_nil in Hr. intuition discriminate.
Qed.

End CoolTechNexus.

Section CoolTechExamples.
Import WaterForPpl.

Lemma broadcast_product_keeps : keeps_other_columns broadcast_product.
Proof.
  intros dims. unfold broadcast_product.
  induction dims as [|d ds IH]; intros df r Hr; cbn in Hr.
  - by exists r.
  - apply IH in Hr as (r1 & Hr1 & Hsame).
    apply list_elem_of_bind in Hr1 as (r0 & Hr1 & Hr0).
    apply list_elem_of_bind in Hr1 as (c' & Hr1 & _).
    apply list_elem_of_singleton in Hr1 as ->.
    exists r0. split; [done|]. intros c Hc.
    rewrite Hsame by (intros ?; apply Hc; cbn; by right).
    apply lookup_insert_ne. intros E. apply Hc. cbn. rewrite <- E. by left.
Qed.

Lemma Y_fresh_copy_copies : hands_out_copy Y_fresh_copy.
Proof.
  intros info h. eexists. split; [|split; [|reflexivity]].
  - intros Hin. apply (is_fresh (dom h ∪ {[year_list info]})).
    by apply elem_of_union_l.
  - intros E. apply (is_fresh (dom h ∪ {[year_list info]})).
    rewrite E at 1. by apply elem_of_union_r, elem_of_singleton.
Qed.

(** One basin and the model years 2020 and 2030: four rows, all of
    water_to_en. *)
Lemma cool_tech_nexus_input_witness :
  exists inp,
    (cool_tech Y_fresh_copy broadcast_product same_node_fill matched_df
       sample_nexus_context sample_data sample_heap).1 !! "input" = Some inp
    /\ length inp = 4%nat
    /\ Forall (fun r : Row => col "technology" r = CStr "water_to_en") inp.
Proof.
  destruct (cool_tech_nexus_input Y_fresh_copy broadcast_product same_node_fill matched_df
              sample_nexus_context sample_data sample_heap eq_refl
              broadcast_product_keeps) as (Y1 & Y2 & inp & Einp & Hin & Hpin & _ & Hall & _).
  destruct (Hpin Y_fresh_copy_copies) as [E1 E2].
  exists inp. split; [exact Hin|]. split.
  - rewrite Einp, E1, E2. reflexivity.
  - eapply Forall_impl; [exact Hall|]. intros r Hr. exact (proj1 Hr).
Defined.

(** On a horizon without 2010 the year list of the context is the same
    after the call, and a later access to [info.Y] gives 2020 and 2030. *)
Lemma cool_tech_keeps_context_years_witness :
  let h' := (cool_tech Y_fresh_copy broadcast_product same_node_fill matched_df
               sample_nexus_context sample_data sample_heap).2 in
  h' !! year_list sample_info = sample_heap !! year_list sample_info
  /\ (Y_cells Y_fresh_copy sample_info h').1 = [CInt 2020; CInt 2030].
Proof.
  intros h'.
  destruct (cool_tech_keeps_context_years Y_fresh_copy broadcast_product same_node_fill
              matched_df Y_fresh_copy_copies sample_nexus_context sample_data sample_heap)
    as (H1 & _ & H2 & _).
  split; [apply H1; by right|exact H2].
Defined.

(** A horizon without 2010: after the call the year list of the context
    still is 2020, 2030, without 2010. *)
Lemma cool_tech_context_years_without_2010 :
  let h' := (cool_tech Y_fresh_copy broadcast_product same_node_fill matched_df
               sample_nexus_context sample_data sample_heap).2 in
  (2010%Z ∉ stored_years sample_info sample_heap)
  /\ stored_years sample_info h' = [2020%Z; 2030%Z]
  /\ (2010%Z ∉ stored_years sample_info h').
Proof.
  cbv zeta.
  assert (E : stored_years sample_info
                (cool_tech Y_fresh_copy broadcast_product same_node_fill matched_df
                   sample_nexus_context sample_data sample_heap).2
              = [2020%Z; 2030%Z]) by (by vm_compute).
  rewrite E. change (stored_years sample_info sample_heap) with [2020%Z; 2030%Z].
  split; [|split; [done|]]; rewrite !elem_of_cons, elem_of_nil; lia.
Qed.

End CoolTechExamples.

(** * More about prepare_computer *)
Section PrepareComputerEffects.
Import ExoData.
Implicit Types (w : World) (k : Key) (t : Task).
Variable get_codes : string -> list string.
Variable Y_from_codes : list string -> list Z.

Lemma preserves_bind {A B} (P : World -> Prop) (m : M A) (f : A -> M B) :
  preserves P m -> (forall a, preserves P (f a)) -> preserves P (m ≫= f).
Proof.
  intros Hm Hf w HP. unfold mbind, M_bind, bind.
  specialize (Hm w HP). destruct (m w) as [[a|e] w']; cbn in *; [|done].
  by apply Hf.
Qed.

Lemma preserves_ret {A} (P : World -> Prop) (a : A) : preserves P (ret a).
Proof. by intros w. Qed.

Lemma preserves_entry_add k v k' t strict :
  k' <> k -> preserves (entry k v) (add k' t strict).
Proof.
  intros Hne w Hw. unfold add, entry in *.
  destruct (_ && _); cbn; [done|]. by rewrite lookup_insert_ne.
Qed.

Lemma preserves_entry_unless k v k' (m : M Key) :
  preserves (entry k v) m -> preserves (entry k v) (unless_contains k' m).
Proof.
  intros Hm w Hw. unfold unless_contains, bind, contains_key.
  case_bool_decide; [done|]. specialize (Hm w Hw). by destruct (m w) as [[] ?].
Qed.

(** A key that is there is not added again. *)
Lemma preserves_present_unless k t (m : M Key) :
  preserves (entry k (Some t)) (unless_contains k m).
Proof.
  intros w Hw. unfold unless_contains, bind, contains_key, entry in *.
  rewrite bool_decide_eq_true_2; [done|]. by rewrite Hw.
Qed.

Lemma preserves_entry_structure context strict k v :
  k ∉ structure_keys ->
  preserves (entry k v) (add_structure get_codes Y_from_codes context strict).
Proof.
  intros Hk. unfold structure_keys in Hk.
  rewrite !elem_of_cons, elem_of_nil in Hk.
  unfold add_structure.
  apply preserves_bind; [by intros ?|intros _].
  do 2 (apply preserves_bind; [apply preserves_entry_add; intros E; apply Hk; auto|intros _]).
  do 2 (apply preserves_bind;
        [apply preserves_entry_unless, preserves_entry_add; intros E; apply Hk; auto 10
        |intros _]).
  do 2 (apply preserves_bind;
        [apply preserves_entry_add; intros E; apply Hk; auto 10|intros _]).
  apply preserves_ret.
Qed.

Lemma preserves_years_structure context strict k t :
  k = k_y \/ k = k_y0 ->
  preserves (entry k (Some t)) (add_structure get_codes Y_from_codes context strict).
Proof.
  intros Hk. unfold add_structure.
  apply preserves_bind; [by intros ?|intros _].
  do 2 (apply preserves_bind;
        [apply preserves_entry_add; by destruct Hk as [->| ->]|intros _]).
  apply preserves_bind; [|intros _].
  { destruct Hk as [->| ->]; [apply preserves_present_unless|].
    by apply preserves_entry_unless, preserves_entry_add. }
  apply preserves_bind; [|intros _].
  { destruct Hk as [->| ->]; [|apply preserves_present_unless].
    by apply preserves_entry_unless, preserves_entry_add. }
  do 2 (apply preserves_bind;
        [apply preserves_entry_add; by destruct Hk as [->| ->]|intros _]).
  apply preserves_ret.
Qed.

(** The data flow only writes keys of the measure's quantity. *)
Lemma preserves_entry_data_flow measure o k v :
  key_name k <> lower measure \/ key_dims k <> ["n"; "y"] ->
  preserves (entry k v) (add_data_flow measure o).
Proof.
  intros Hk w Hw. rewrite add_data_flow_spec. unfold entry in *. cbn.
  assert (H1 : forall tag, add_tag (Key_ny (lower measure)) tag <> k)
    by (intros tag <-; cbn in Hk; by destruct Hk).
  assert (H2 : forall tag,
             add_tag (add_tag (Key_ny (lower measure)) (obj_id o)) tag <> k)
    by (intros tag <-; cbn in Hk; by destruct Hk).
  assert (H3 : Key_ny (lower measure) <> k)
    by (intros <-; cbn in Hk; by destruct Hk).
  by rewrite !lookup_insert_ne by done.
Qed.

(** What [prepare_computer] leaves in the world, in terms of its flow. *)
Lemma prepare_computer_preserves (P : World -> Prop)
    SOURCES context source source_kw strict w :
  (forall w', comp w' = comp w -> P w') ->
  (forall o, preserves P (add_structure get_codes Y_from_codes context strict ≫=
                            fun _ => add_data_flow (measure_of (default ∅ source_kw)) o)) ->
  P (prepare_computer get_codes Y_from_codes SOURCES context source source_kw strict w).2.
Proof.
  intros Hcomp Hflow. rewrite prepare_computer_lookup.
  destruct (last _) as [o|]; [|by apply Hcomp].
  apply Hflow. by apply Hcomp.
Qed.


(** [prepare_computer] never replaces the periods of a Computer: an
    existing task under "y" or under "y0" is the same after the call,
    whatever the registry, the request and the outcome. *)
Theorem prepare_computer_keeps_periods SOURCES context source source_kw strict w k t :
  k = k_y \/ k = k_y0 ->
  graph (comp w) !! k = Some t ->
  graph (comp (prepare_computer get_codes Y_from_codes SOURCES context source source_kw
                 strict w).2) !! k = Some t.
Proof.
  intros Hk Hw.
  apply (prepare_computer_preserves (entry k (Some t))).
  - intros w' E. unfold entry. by rewrite E.
  - intros o. apply preserves_bind; [by apply preserves_years_structure|intros _].
    apply preserves_entry_data_flow. right. by destruct Hk as [->| ->].
Qed.

(** Apart from the six structural keys and the keys of the measure's
    quantity, no entry of the graph is added, changed or removed. *)
Theorem prepare_computer_frame SOURCES context source source_kw strict w k :
  k ∉ structure_keys ->
  key_name k <> lower (measure_of (default ∅ source_kw)) \/ key_dims k <> ["n"; "y"] ->
  graph (comp (prepare_computer get_codes Y_from_codes SOURCES context source source_kw
                 strict w).2) !! k = graph (comp w) !! k.
Proof.
  intros Hk Hq.
  apply (prepare_computer_preserves (entry k (graph (comp w) !! k))).
  - intros w' E. unfold entry. by rewrite E.
  - intros o. apply preserves_bind; [by apply preserves_entry_structure|intros _].
    by apply preserves_entry_data_flow.
Qed.

Lemma add_structure_existing_codes context w :
  is_Some (graph (comp w) !! k_n_codes) ->
  add_structure get_codes Y_from_codes context true w
  = (Raise (KeyExistsError "n::codes"),
     mkWorld (mkComputer (graph (comp w))
                (modules (comp w) ++ ["message_ix_models.report.computations"]))
       (warnings w) (tried w)).
Proof.
  intros Hc. unfold add_structure.
  erewrite bind_Ok by reflexivity.
  erewrite bind_Raise; [reflexivity|]. by apply add_strict_present.
Qed.

Lemma add_structure_existing_groups context w :
  graph (comp w) !! k_n_codes = None ->
  is_Some (graph (comp w) !! k_n_groups) ->
  add_structure get_codes Y_from_codes context true w
  = (Raise (KeyExistsError "n::groups"),
     mkWorld (mkComputer
                (<[k_n_codes := TQuoteCodes (get_codes ("node/" +:+ model_regions context))]>
                   (graph (comp w)))
                (modules (comp w) ++ ["message_ix_models.report.computations"]))
       (warnings w) (tried w)).
Proof.
  intros Hc Hg. unfold add_structure.
  erewrite bind_Ok by reflexivity.
  erewrite bind_Ok by (by apply add_absent).
  erewrite bind_Raise; [reflexivity|].
  apply add_strict_present. cbn. by rewrite lookup_insert_ne.
Qed.

(** With [strict] on and a request that a provider accepts: an existing
    "n::codes" makes the call raise before the graph is touched; an
    existing "n::groups" makes it raise after "n::codes" was added, which
    stays in the graph; with both keys free the call returns. *)
Theorem prepare_computer_strict_errors SOURCES context source source_kw w o :
  last (omap (accept source (default ∅ source_kw)) (SOURCES.*2)) = Some o ->
  let r := prepare_computer get_codes Y_from_codes SOURCES context source source_kw
             true w in
  match graph (comp w) !! k_n_codes, graph (comp w) !! k_n_groups with
  | Some _, _ =>
      r.1 = Raise (KeyExistsError "n::codes") /\ graph (comp r.2) = graph (comp w)
  | None, Some _ =>
      r.1 = Raise (KeyExistsError "n::groups")
      /\ graph (comp r.2)
         = <[k_n_codes := TQuoteCodes (get_codes ("node/" +:+ model_regions context))]>
             (graph (comp w))
  | None, None => is_ok r.1 = true
  end.
Proof.
  intros Hlast r. subst r. rewrite prepare_computer_lookup, Hlast.
  set (w1 := after_lookup _ _ w).
  assert (Hg : graph (comp w1) = graph (comp w)) by done.
  destruct (graph (comp w) !! k_n_codes) as [tc|] eqn:Ec.
  - erewrite bind_Raise
      by (apply add_structure_existing_codes; rewrite Hg, Ec; eauto).
    by rewrite <- Hg.
  - destruct (graph (comp w) !! k_n_groups) as [tg|] eqn:Eg.
    + erewrite bind_Raise
        by (apply add_structure_existing_groups; rewrite Hg; [done|rewrite Eg; eauto]).
      by rewrite <- Hg.
    + destruct (add_structure_spec get_codes Y_from_codes context true w1)
        as (g & E & _); [right; by rewrite Hg|].
      erewrite bind_Ok by apply E. by rewrite add_data_flow_spec.
Qed.

Lemma bind_Ok_inv {A B} (m : M A) (f : A -> M B) w b w' :
  (m ≫= f) w = (Ok b, w') -> exists a w1, m w = (Ok a, w1) /\ f a w1 = (Ok b, w').
Proof.
  unfold mbind, M_bind, bind. destruct (m w) as [[a|e] w1]; [|done]. eauto.
Qed.

Lemma preserves_has_add k k' t strict :
  preserves (fun w => is_Some (graph (comp w) !! k)) (add k' t strict).
Proof.
  intros w Hw. unfold add. destruct (_ && _); cbn; [done|].
  destruct (decide (k' = k)) as [->|Hne];
    [rewrite lookup_insert_eq; eauto|by rewrite lookup_insert_ne].
Qed.

Lemma preserves_has_unless k k' (m : M Key) :
  preserves (fun w => is_Some (graph (comp w) !! k)) m ->
  preserves (fun w => is_Some (graph (comp w) !! k)) (unless_contains k' m).
Proof.
  intros Hm w Hw. unfold unless_contains, bind, contains_key.
  case_bool_decide; [done|]. specialize (Hm w Hw). by destruct (m w) as [[] ?].
Qed.

(** A call that returns leaves the node code list in the graph. *)
Lemma prepare_computer_ok_codes SOURCES context source source_kw strict w :
  is_ok (prepare_computer get_codes Y_from_codes SOURCES context source source_kw
           strict w).1 = true ->
  is_Some (graph (comp (prepare_computer get_codes Y_from_codes SOURCES context source
                          source_kw strict w).2) !! k_n_codes).
Proof.
  rewrite prepare_computer_lookup. destruct (last _) as [o|]; [|done].
  set (w1 := after_lookup _ _ w).
  set (flow := add_structure get_codes Y_from_codes context strict ≫= _).
  destruct (flow w1) as [[keys|e] w2] eqn:E; [intros _|done].
  apply bind_Ok_inv in E as ([] & w3 & Es & Ef).
  unfold add_structure in Es.
  apply bind_Ok_inv in Es as ([] & w4 & _ & Es).
  apply bind_Ok_inv in Es as (kc & w5 & Ec & Es).
  assert (Hc : is_Some (graph (comp w5) !! k_n_codes)).
  { unfold add in Ec. destruct (_ && _); [done|].
    injection Ec as _ <-. cbn. rewrite lookup_insert_eq. eauto. }
  assert (Hrest : is_Some (graph (comp w3) !! k_n_codes)).
  { match type of Es with
    | ?m w5 = _ =>
        assert (Hp : preserves (fun w => is_Some (graph (comp w) !! k_n_codes)) m)
    end.
    { apply preserves_bind; [apply preserves_has_add|intros _].
      do 2 (apply preserves_bind;
            [apply preserves_has_unless, preserves_has_add|intros _]).
      do 2 (apply preserves_bind; [apply preserves_has_add|intros _]).
      apply preserves_ret. }
    specialize (Hp w5 Hc). by rewrite Es in Hp. }
  cbn. rewrite add_data_flow_spec in Ef. injection Ef as _ <-. cbn.
  destruct Hrest as [tc Hrest].
  rewrite !lookup_insert_ne by done. eauto.
Qed.

(** A second call on the same Computer with [strict] on cannot succeed:
    once a call has returned, every later strict call for a request that
    a provider accepts raises [KeyExistsError] for "n::codes" and leaves
    the graph as the first call left it. *)
Theorem prepare_computer_twice_strict
    SOURCES context source source_kw strict w
    SOURCES' context' source' source_kw' o' :
  let r1 := prepare_computer get_codes Y_from_codes SOURCES context source source_kw
              strict w in
  let r2 := prepare_computer get_codes Y_from_codes SOURCES' context' source' source_kw'
              true r1.2 in
  is_ok r1.1 = true ->
  last (omap (accept source' (default ∅ source_kw')) (SOURCES'.*2)) = Some o' ->
  r2.1 = Raise (KeyExistsError "n::codes") /\ graph (comp r2.2) = graph (comp r1.2).
Proof.
  intros r1 r2 Hok Hlast.
  pose proof (prepare_computer_ok_codes _ _ _ _ _ _ Hok) as [tc Hc]. fold r1 in Hc.
  pose proof (prepare_computer_strict_errors SOURCES' context' source' source_kw' r1.2 o'
                Hlast) as H.
  cbv zeta in H. by rewrite Hc in H.
Qed.

(** The call logs at most one warning: one when "measure" is given,
    non-empty and not in [MEASURES], none otherwise; this holds whether the
    call returns or raises. *)
Theorem prepare_computer_warnings SOURCES context source source_kw strict w :
  warnings (prepare_computer get_codes Y_from_codes SOURCES context source source_kw
              strict w).2
  = warnings w ++
    match default ∅ source_kw !! "measure" with
    | Some measure =>
        if bool_decide (measure = "" \/ measure ∈ MEASURES) then []
        else [warning_text measure]
    | None => []
    end.
Proof.
  rewrite prepare_computer_lookup.
  assert (Hw : measure_warnings (default ∅ source_kw)
               = match default ∅ source_kw !! "measure" with
                 | Some measure =>
                     if bool_decide (measure = "" \/ measure ∈ MEASURES) then []
                     else [warning_text measure]
                 | None => []
                 end).
  { unfold measure_warnings. destruct (_ !! "measure") as [[|c m]|]; [done| |done].
    case_bool_decide as H1; case_bool_decide as H2; try done; exfalso.
    - apply H2. by right.
    - by destruct H2. }
  rewrite <- Hw. destruct (last _) as [o|]; [|done].
  by rewrite (proj2 (keeps_log_flow _ _ _ _ _ _ _)).
Qed.

(** Whenever the call returns, it returns two keys over the dimensions n
    and y, both named after the lower-cased measure, "unknown" when no
    measure or an empty one was given; the second carries the tag
    "y0 indexed". *)
Theorem prepare_computer_returned_keys SOURCES context source source_kw strict w keys :
  (prepare_computer get_codes Y_from_codes SOURCES context source source_kw strict w).1
  = Ok keys ->
  let name :=
    lower match default ∅ source_kw !! "measure" with
          | Some measure => if bool_decide (measure = "") then "UNKNOWN" else measure
          | None => "UNKNOWN"
          end in
  keys = [mkKey name ["n"; "y"] ""; mkKey name ["n"; "y"] "y0 indexed"].
Proof.
  rewrite prepare_computer_lookup. destruct (last _) as [o|]; [|done].
  set (flow := add_structure get_codes Y_from_codes context strict ≫= _).
  destruct (flow _) as [[keys'|e] w2] eqn:E; [|done].
  apply bind_Ok_inv in E as ([] & w3 & _ & Ef).
  rewrite add_data_flow_spec in Ef. injection Ef as <- _.
  intros [= <-]. cbn. unfold measure_of.
  destruct (_ !! "measure") as [[|c m]|]; done.
Qed.

End PrepareComputerEffects.

Section PrepareComputerEffectsExamples.
Import ExoData.

Lemma prepare_computer_keeps_periods_witness :
  graph (comp (prepare_computer sample_get_codes sample_Y_from_codes
                 (SOURCES_initial sample_countries) sample_context "test s1"
                 (Some kw_POP) true world_with_periods).2) !! k_y
  = Some (TQuoteYears [2025%Z; 2035%Z]).
Proof.
  apply (prepare_computer_keeps_periods sample_get_codes sample_Y_from_codes).
  - left. reflexivity.
  - reflexivity.
Defined.

Lemma prepare_computer_frame_witness :
  graph (comp (prepare_computer sample_get_codes sample_Y_from_codes
                 (SOURCES_initial sample_countries) sample_context "test s1"
                 (Some kw_POP) true world_with_gdp).2) !! Key_ny "gdp"
  = Some (TOp "interpolate" [] []).
Proof.
  rewrite (prepare_computer_frame sample_get_codes sample_Y_from_codes).
  - reflexivity.
  - unfold structure_keys. rewrite !elem_of_cons, elem_of_nil.
    intros [E|[E|[E|[E|[E|[E|[]]]]]]]; discriminate E.
  - left. discriminate.
Defined.

Lemma prepare_computer_strict_errors_witness :
  let r := prepare_computer sample_get_codes sample_Y_from_codes
             (SOURCES_initial sample_countries) sample_context "test s1"
             (Some kw_POP) true world_with_groups in
  r.1 = Raise (KeyExistsError "n::groups")
  /\ graph (comp r.2) !! k_n_codes = Some (TQuoteCodes ["World"; "R11_AFR"; "R11_CPA"]).
Proof.
  intros r.
  pose proof (prepare_computer_strict_errors sample_get_codes sample_Y_from_codes
                (SOURCES_initial sample_countries) sample_context "test s1"
                (Some kw_POP) world_with_groups demo_s1 eq_refl) as H.
  cbv zeta in H.
  assert (E1 : graph (comp world_with_groups) !! k_n_codes = None) by reflexivity.
  assert (E2 : graph (comp world_with_groups) !! k_n_groups
               = Some (TOp "codelist_to_groups" [k_n_codes] [])) by reflexivity.
  rewrite E1, E2 in H. destruct H as [H1 H2].
  split; [exact H1|]. fold r in H2. rewrite H2. reflexivity.
Defined.

Lemma prepare_computer_twice_strict_witness :
  let r1 := prepare_computer sample_get_codes sample_Y_from_codes
              (SOURCES_initial sample_countries) sample_context "test s1"
              (Some kw_POP) true empty_world in
  let r2 := prepare_computer sample_get_codes sample_Y_from_codes
              (SOURCES_initial sample_countries) sample_context "test s1"
              (Some {["measure" := "GDP"]}) true r1.2 in
  is_ok r1.1 = true /\ r2.1 = Raise (KeyExistsError "n::codes").
Proof.
  intros r1 r2. split; [reflexivity|].
  apply (prepare_computer_twice_strict sample_get_codes sample_Y_from_codes
           (SOURCES_initial sample_countries) sample_context "test s1" (Some kw_POP)
           true empty_world
           (SOURCES_initial sample_countries) sample_context "test s1"
           (Some {["measure" := "GDP"]})
           (mkSourceObj (DemoSource sample_countries) (<["v" := "GDP"]> {["s" := "s1"]})));
    reflexivity.
Defined.

Lemma prepare_computer_returned_keys_witness :
  exists keys,
    (prepare_computer sample_get_codes sample_Y_from_codes [("ANY", AnySource)]
       sample_context "anything" None false empty_world).1 = Ok keys
    /\ keys = [mkKey "unknown" ["n"; "y"] ""; mkKey "unknown" ["n"; "y"] "y0 indexed"].
Proof.
  eexists. split; [reflexivity|].
  apply (prepare_computer_returned_keys sample_get_codes sample_Y_from_codes
           [("ANY", AnySource)] sample_context "anything" None false empty_world).
  reflexivity.
Defined.

End PrepareComputerEffectsExamples.

(** * More about DemoSource and the registry *)
Section DemoSourceRequests.
Import ExoData.
Variable countries : list string.

Lemma find_from_prefix (sep s : string) (i : nat) :
  String.prefix sep s = true -> find_from sep s i = Some i.
Proof. intros H. destruct s; cbn [find_from]; by rewrite H. Qed.

(** After the prefix "test " the rest of the source is the scenario. *)
Lemma partition_test (source : string) :
  startswith source "test " = true ->
  (partition "test " source).2 = drop_str 5 source.
Proof.
  intros H. unfold partition, find. by rewrite find_from_prefix.
Qed.

Lemma measure_variable_lookup (measure : string) :
  measure_variable !! measure
  = if bool_decide (measure ∈ MEASURES) then Some (demo_variable measure) else None.
Proof.
  unfold measure_variable, demo_variable, MEASURES.
  destruct (decide (measure = "POP")) as [->|Hp]; [done|].
  destruct (decide (measure = "GDP")) as [->|Hg]; [done|].
  rewrite lookup_insert_ne, lookup_singleton_ne by done.
  rewrite bool_decide_eq_false_2; [done|].
  rewrite !elem_of_cons, elem_of_nil. intuition.
Qed.

(** [DemoSource] accepts exactly the requests whose source starts with
    "test " and whose measure is one of [MEASURES]; it then stores the rest
    of the source as the scenario and the variable of the measure.  A
    source without the prefix is a [ValueError], also when the measure is
    missing; with the prefix, a missing or unknown measure is a
    [KeyError]. *)
Theorem DemoSource_init_accepts (source : string) (source_kw : gmap string string) :
  DemoSource_init source source_kw
  = if negb (startswith source "test ") then Raise (ValueError "")
    else match source_kw !! "measure" with
         | None => Raise (KeyError "measure")
         | Some measure =>
             if bool_decide (measure ∈ MEASURES)
             then Ok (<["v" := demo_variable measure]> {["s" := drop_str 5 source]})
             else Raise (KeyError measure)
         end.
Proof.
  unfold DemoSource_init.
  destruct (startswith source "test ") eqn:Hs; cbn [negb]; [|done].
  rewrite partition_test by done.
  destruct (source_kw !! "measure") as [measure|]; [|done].
  rewrite measure_variable_lookup. by case_bool_decide.
Qed.

Lemma random_data_scenarios :
  q_coords (random_data countries) !! "s" = Some demo_scenarios
  /\ q_coords (random_data countries) !! "v" = Some ["Population"; "GDP"]
  /\ q_coords (random_data countries) !! "y" = Some ["2010"; "2050"]
  /\ q_dims (random_data countries) = ["n"; "y"; "s"; "v"]
  /\ q_units (random_data countries) = "kg".
Proof. repeat split; by vm_compute. Qed.

Lemma demo_variable_label (measure : string) :
  has_label (random_data countries) "v" (demo_variable measure) = true.
Proof.
  unfold has_label. destruct random_data_scenarios as (_ & -> & _).
  unfold demo_variable. by destruct (bool_decide (measure = "POP")).
Qed.

Lemma demo_bad_label (scenario measure : string) :
  bad_label (random_data countries)
    (<["v" := demo_variable measure]> {["s" := scenario]})
  = if bool_decide (scenario ∈ demo_scenarios) then None else Some scenario.
Proof.
  unfold bad_label. destruct random_data_scenarios as (Hs & _ & _ & -> & _).
  cbn [omap list_omap].
  set (indexers := <["v" := demo_variable measure]> {["s" := scenario]}).
  assert (En : indexers !! "n" = None) by done.
  assert (Ey : indexers !! "y" = None) by done.
  assert (Es : indexers !! "s" = Some scenario) by done.
  assert (Ev : indexers !! "v" = Some (demo_variable measure)) by done.
  rewrite En, Ey, Es, Ev, demo_variable_label.
  unfold has_label. rewrite Hs. cbn [default from_option id].
  by case_bool_decide.
Qed.

(** The call of an accepted [DemoSource] returns exactly when the scenario
    named by the source is one of s0 to s4, and what it returns has the
    dimensions n and y, in this order, and the units kg; for every other
    scenario it raises [KeyError] with that scenario. *)
Theorem DemoSource_call_returns_iff (source : string) (source_kw indexers : gmap string string) :
  DemoSource_init source source_kw = Ok indexers ->
  let scenario := drop_str 5 source in
  if bool_decide (scenario ∈ demo_scenarios)
  then exists q, DemoSource_call countries indexers = Ok q
                 /\ q_dims q = ["n"; "y"] /\ q_units q = "kg"
  else DemoSource_call countries indexers = Raise (KeyError scenario).
Proof.
  rewrite DemoSource_init_accepts. cbv zeta.
  generalize (drop_str 5 source). intros scenario.
  destruct (negb _); [done|].
  destruct (source_kw !! "measure") as [measure|]; [|done].
  case_bool_decide; [|done]. intros E. injection E as <-.
  unfold DemoSource_call, select. rewrite demo_bad_label.
  case_bool_decide; [|done].
  eexists. split; [reflexivity|]. cbn [q_dims q_units].
  destruct random_data_scenarios as (_ & _ & _ & -> & ->).
  split; [|done].
  set (indexers := <["v" := demo_variable measure]> {["s" := scenario]}).
  assert (En : indexers !! "n" = None) by done.
  assert (Ey : indexers !! "y" = None) by done.
  assert (Es : indexers !! "s" = Some scenario) by done.
  assert (Ev : indexers !! "v" = Some (demo_variable measure)) by done.
  rewrite !filter_cons, filter_nil, En, Ey, Es, Ev.
  by rewrite !decide_True, !decide_False by done.
Qed.

End DemoSourceRequests.

Section DemoSourceExamples.
Import ExoData.

Lemma DemoSource_call_returns_iff_witness :
  exists q,
    DemoSource_call sample_countries (<["v" := "Population"]> {["s" := "s3"]}) = Ok q
    /\ q_dims q = ["n"; "y"] /\ q_units q = "kg".
Proof.
  pose proof (DemoSource_call_returns_iff sample_countries "test s3" kw_POP
                (<["v" := "Population"]> {["s" := "s3"]}) eq_refl) as H.
  cbv zeta in H.
  assert (E : bool_decide (drop_str 5 "test s3" ∈ demo_scenarios) = true) by reflexivity.
  rewrite E in H. exact H.
Defined.

End DemoSourceExamples.

Section DemoData.
Import ExoData.

Lemma relabel_in_order (label : nat -> string) (names : list string) (k : nat) :
  Inj (=) (=) label ->
  map (fun l => default l
                  ((list_to_map (imap (fun i c => (label (k + i), c)) names)
                      : gmap string string) !! l))
    (map label (seq k (length names)))
  = names.
Proof.
  intros Hinj. revert k. induction names as [|c names IH]; intros k; [done|].
  cbn [length seq map imap list_to_map foldr].
  rewrite Nat.add_0_r. cbn [fst snd]. rewrite lookup_insert_eq. cbn. f_equal.
  rewrite <- (IH (S k)) at 2.
  rewrite !map_map. apply map_ext_in. intros j Hj.
  apply in_seq in Hj.
  rewrite lookup_insert_ne by (intros E; apply Hinj in E; lia).
  f_equal. f_equal. f_equal. apply imap_ext. intros i x _. cbn.
  by rewrite Nat.add_succ_r.
Qed.

Lemma node_label_inj : Inj (=) (=) (fun i : nat => "n" +:+ pretty i).
Proof. intros i j E. injection E as E. by apply (inj pretty). Qed.

(** The nodes of the demo data are the alpha-3 codes of the countries, in
    the order of the country list: each default label "n<i>" is replaced by
    the code of the i-th country, and none is left or repeated. *)
Theorem random_data_nodes (countries : list string) :
  q_coords (random_data countries) !! "n" = Some countries.
Proof.
  unfold random_data, relabel. cbn [q_coords].
  rewrite !lookup_alter_ne by done. rewrite lookup_alter_eq.
  unfold random_qty. cbn [q_coords map fst snd list_to_map foldr].
  rewrite lookup_insert_eq. cbn [fmap option_fmap option_map]. f_equal.
  apply (relabel_in_order (fun i => "n" +:+ pretty i) countries 0), node_label_inj.
Qed.

End DemoData.

Section RegistryLookup.
Import ExoData.
Implicit Types (cls : SourceClass) (SOURCES : list (string * SourceClass)).

Lemma registry_get_None id SOURCES :
  registry_get id SOURCES = None <-> id ∉ SOURCES.*1.
Proof.
  induction SOURCES as [|[i c] rest IH]; cbn.
  - split; [intros _|done]. apply not_elem_of_nil.
  - rewrite not_elem_of_cons. case_bool_decide; [split; [done|intros [? _]; by subst]|].
    rewrite IH. split; [by intros ?|by intros []].
Qed.

Lemma registry_get_snoc_other id SOURCES cls :
  registry_get id (SOURCES ++ [(cls_id cls, cls)])
  = match registry_get id SOURCES with
    | Some c => Some c
    | None => if bool_decide (cls_id cls = id) then Some cls else None
    end.
Proof.
  induction SOURCES as [|[i c] rest IH]; [reflexivity|].
  rewrite <- app_comm_cons. cbn [registry_get].
  destruct (bool_decide (i = id)); [done|apply IH].
Qed.

(** Registration is first come, first served: after any sequence of
    [register_source] calls, the class found under an id is the one the
    registry already had, or else the first class of the sequence with
    that id; later classes with the same id change nothing. *)
Theorem register_all_first_wins (clss : list SourceClass) SOURCES id :
  registry_get id (register_all clss SOURCES)
  = match registry_get id SOURCES with
    | Some c => Some c
    | None => head (filter (fun c => cls_id c = id) clss)
    end.
Proof.
  revert SOURCES. induction clss as [|c rest IH]; intros SOURCES.
  { cbn. by destruct (registry_get id SOURCES). }
  cbn [register_all foldl]. fold (register_all rest (register_source c SOURCES).2).
  rewrite IH. rewrite filter_cons.
  destruct (decide (cls_id c ∈ SOURCES.*1)) as [Hin|Hout].
  - rewrite register_source_present by done. cbn [snd].
    destruct (registry_get id SOURCES) as [c0|] eqn:E; [done|].
    apply registry_get_None in E.
    rewrite decide_False; [done|]. by intros <-.
  - rewrite register_source_absent by done. cbn [snd].
    rewrite registry_get_snoc_other.
    destruct (registry_get id SOURCES) as [c0|] eqn:E; [done|].
    case_bool_decide; [by rewrite decide_True|by rewrite decide_False].
Qed.

End RegistryLookup.

(** * iamc_like_data_for_query *)
Section IamcData.
Import ExoData.

Lemma elem_of_unique_values (l : list string) (x : string) :
  x ∈ unique_values l <-> x ∈ l.
Proof.
  induction l as [|y l IH]; cbn; [done|].
  rewrite !elem_of_cons, list_elem_of_filter, IH.
  destruct (decide (x = y)); tauto.
Qed.

Lemma filter_none {A} (P : A -> Prop) `{forall x, Decision (P x)} (l : list A) :
  (forall x, x ∈ l -> ~ P x) -> filter P l = [].
Proof.
  induction l as [|a l IH]; intros Hall; [done|].
  rewrite filter_cons, decide_False by (apply Hall; by left).
  apply IH. intros x Hx. apply Hall. by right.
Qed.

(** A column has at most one distinct value exactly when all its cells
    are equal. *)
Lemma unique_values_short (l : list string) :
  (1 <? length (unique_values l))%nat = false <-> forall x y, x ∈ l -> y ∈ l -> x = y.
Proof.
  rewrite Nat.ltb_ge. destruct l as [|a l]; cbn.
  { split; [intros _ x y Hx|lia]. by apply elem_of_nil in Hx. }
  split.
  - intros Hlen.
    assert (Hnil : filter (fun y => y <> a) (unique_values l) = [])
      by (destruct (filter _ _); [done|cbn in Hlen; lia]).
    assert (Hall : forall x, x ∈ a :: l -> x = a).
    { intros x [->|Hx]%elem_of_cons; [done|].
      destruct (decide (x = a)) as [|Hne]; [done|].
      assert (Hin : x ∈ filter (fun y => y <> a) (unique_values l))
        by (apply list_elem_of_filter; split; [done|by apply elem_of_unique_values]).
      rewrite Hnil in Hin. by apply elem_of_nil in Hin. }
    intros x y Hx Hy. by rewrite (Hall x Hx), (Hall y Hy).
  - intros Hall.
    assert (Hnil : filter (fun y => y <> a) (unique_values l) = []).
    { apply filter_none. intros x Hx Hne. apply (proj1 (elem_of_unique_values l x)) in Hx.
      apply Hne, Hall; apply elem_of_cons; [by right|by left]. }
    rewrite Hnil. cbn. lia.
Qed.

Lemma constant_column_short (name : string) (df : list IamcRow) :
  (1 <? length (unique_values (map (column name) df)))%nat = false
  <-> constant_column name df.
Proof.
  rewrite unique_values_short. unfold constant_column. split.
  - intros H r1 r2 H1 H2.
    apply H; change (map (column name) df) with (column name <$> df);
      by apply list_elem_of_fmap_2.
  - intros H x y Hx Hy.
    change (map (column name) df) with (column name <$> df) in Hx, Hy.
    apply list_elem_of_fmap in Hx as (r1 & -> & H1).
    apply list_elem_of_fmap in Hy as (r2 & -> & H2). by apply H.
Qed.

Lemma check_unique_frame (names : list string) (df : list IamcRow)
  (u u' : gmap string string) (name : string) :
  check_unique names df u = inr u' -> name ∉ names -> u' !! name = u !! name.
Proof.
  revert u. induction names as [|n names IH]; intros u; cbn [check_unique].
  { by intros [= <-]. }
  destruct (1 <? _)%nat; [done|]. intros E Hn.
  rewrite (IH _ E) by (intros ?; apply Hn; by right).
  apply lookup_insert_ne. intros ->. apply Hn. by left.
Qed.

(** The loop succeeds exactly when every named column is constant, and
    then [unique] holds the first cell of each of them. *)
Lemma check_unique_inr (names : list string) (df : list IamcRow)
  (u u' : gmap string string) :
  check_unique names df u = inr u' ->
  forall name, name ∈ names ->
    constant_column name df /\
    u' !! name = Some (default "" (head (map (column name) df))).
Proof.
  revert u. induction names as [|n names IH]; intros u; cbn [check_unique].
  { intros _ name Hn. by apply elem_of_nil in Hn. }
  destruct (1 <? _)%nat eqn:Hshort; [done|]. intros E name Hn.
  destruct (decide (name ∈ names)) as [Hin|Hout]; [by apply (IH _ E)|].
  apply elem_of_cons in Hn as [->|Hn]; [|done]. split.
  - by apply constant_column_short.
  - rewrite (check_unique_frame _ _ _ _ _ E Hout), lookup_insert_eq.
    by destruct df.
Qed.

Lemma check_unique_constant (names : list string) (df : list IamcRow)
  (u : gmap string string) :
  (forall name, name ∈ names -> constant_column name df) ->
  exists u', check_unique names df u = inr u'.
Proof.
  revert u. induction names as [|n names IH]; intros u Hall; cbn [check_unique].
  { by exists u. }
  rewrite (proj2 (constant_column_short n df)) by (apply Hall; by left).
  apply IH. intros name Hn. apply Hall. by right.
Qed.

(** The loop fails at the first named column that is not constant. *)
Lemma check_unique_inl (names : list string) (df : list IamcRow)
  (u : gmap string string) (e : IamcError) :
  check_unique names df u = inl e ->
  exists before name after,
    names = before ++ name :: after /\
    (forall n, n ∈ before -> constant_column n df) /\
    ~ constant_column name df /\
    e = NotUnique name (unique_values (map (column name) df)).
Proof.
  revert u. induction names as [|n names IH]; intros u; cbn [check_unique]; [done|].
  destruct (1 <? _)%nat eqn:Hshort.
  - intros [= <-]. exists [], n, names. repeat split; [|..].
    + intros m Hm. by apply elem_of_nil in Hm.
    + intros Hc%constant_column_short. congruence.
  - intros (before & name & after & -> & Hb & Hname & ->)%IH.
    exists (n :: before), name, after. repeat split; [|done].
    intros m [->|Hm]%elem_of_cons; [by apply constant_column_short|by apply Hb].
Qed.

Lemma queried_nil (rows : list IamcRow) (query : IamcRow -> bool)
  (replace : option (gmap string string)) :
  queried rows query replace = [] <-> forall r, r ∈ rows -> query r = false.
Proof.
  unfold queried. split.
  - intros E r Hr. destruct (query r) eqn:Hq; [|done].
    assert (Hin : r ∈ filter (fun r => query r = true) rows)
      by (by apply list_elem_of_filter).
    destruct (filter _ rows); [by apply elem_of_nil in Hin|done].
  - intros Hall. rewrite filter_none; [done|].
    intros r Hr. rewrite (Hall r Hr). discriminate.
Qed.

Lemma elem_of_stack (df : list (string * list (Z * option Q)))
  (n : string) (y : Z) (v : Q) :
  (n, y, v) ∈ stack df <-> exists s, (n, s) ∈ df /\ (y, Some v) ∈ s.
Proof.
  unfold stack. rewrite list_elem_of_In, in_flat_map. split.
  - intros ([n' s] & Hin%list_elem_of_In & Hy%list_elem_of_In).
    apply list_elem_of_omap in Hy as ([y' [v'|]] & Hy & E); [|done].
    cbn in E. injection E as -> -> ->. by exists s.
  - intros (s & Hin & Hy). exists (n, s). split; [by apply list_elem_of_In|].
    apply list_elem_of_In, list_elem_of_omap. by exists (y, Some v).
Qed.

End IamcData.

Section IamcQuery.
Import ExoData.
Variable iso_3166_alpha_3 : string -> option string.
Variable units_defined : string -> bool.
Variable rows : list IamcRow.
Variable query : IamcRow -> bool.
Variable replace : option (gmap string string).

Lemma iamc_unfold :
  iamc_like_data_for_query iso_3166_alpha_3 units_defined rows query replace =
  match queried rows query replace with
  | [] => inl NoRows
  | _ =>
      match check_unique unique_names (queried rows query replace) ∅ with
      | inl e => inl e
      | inr unique =>
          if units_defined (default "" (unique !! "UNIT"))
          then inr (mkIamcQuantity
                      (stack (index_by_node iso_3166_alpha_3
                                (map (fun r => (REGION r, series r))
                                   (queried rows query replace))))
                      (default "" (unique !! "UNIT")))
          else inl (UndefinedUnit (default "" (unique !! "UNIT")))
      end
  end.
Proof.
  unfold iamc_like_data_for_query, drop_unique. fold (queried rows query replace).
  destruct (queried rows query replace); [done|].
  by destruct (check_unique _ _ _).
Qed.

Lemma elem_of_index_by_node (df : list (string * list (Z * option Q)))
  (n : string) (s : list (Z * option Q)) :
  (n, s) ∈ index_by_node iso_3166_alpha_3 df
  <-> exists region, (region, s) ∈ df /\ iso_3166_alpha_3 region = Some n.
Proof.
  unfold index_by_node. rewrite list_elem_of_omap. split.
  - intros ([region s'] & Hin & E). cbn in E.
    destruct (iso_3166_alpha_3 region) eqn:Hiso; [|done].
    injection E as -> ->. by exists region.
  - intros (region & Hin & Hiso). exists (region, s). split; [done|].
    cbn. by rewrite Hiso.
Qed.

Lemma iamc_inr_inv (q : IamcQuantity) :
  iamc_like_data_for_query iso_3166_alpha_3 units_defined rows query replace = inr q ->
  exists u,
    queried rows query replace <> [] /\
    check_unique unique_names (queried rows query replace) ∅ = inr u /\
    units_defined (default "" (u !! "UNIT")) = true /\
    q = mkIamcQuantity
          (stack (index_by_node iso_3166_alpha_3
                    (map (fun r => (REGION r, series r))
                       (queried rows query replace))))
          (default "" (u !! "UNIT")).
Proof.
  rewrite iamc_unfold.
  destruct (queried rows query replace) as [|r0 df]; [done|].
  destruct (check_unique _ _ _) as [e|u]; [done|].
  destruct (units_defined _) eqn:Hu; [|done].
  intros [= <-]. by exists u.
Qed.

Lemma iamc_inl_inv (e : IamcError) :
  iamc_like_data_for_query iso_3166_alpha_3 units_defined rows query replace = inl e ->
  (e = NoRows /\ queried rows query replace = []) \/
  check_unique unique_names (queried rows query replace) ∅ = inl e \/
  exists unit, e = UndefinedUnit unit.
Proof.
  rewrite iamc_unfold.
  destruct (queried rows query replace) as [|r0 df]; [intros [= <-]; by left|].
  destruct (check_unique _ _ _) as [e'|u].
  - intros [= <-]. right. by left.
  - destruct (units_defined _); [done|]. intros [= <-]. right. right. by eexists.
Qed.

(** The common unit of the selected rows, as [drop_unique] stores it. *)
Lemma check_unique_unit (u : gmap string string) (r : IamcRow) :
  check_unique unique_names (queried rows query replace) ∅ = inr u ->
  r ∈ queried rows query replace ->
  default "" (u !! "UNIT") = UNIT r.
Proof.
  intros Eu Hr.
  assert (Hunit : "UNIT" ∈ unique_names)
    by (unfold unique_names; rewrite !elem_of_cons; tauto).
  destruct (check_unique_inr _ _ _ _ Eu _ Hunit) as [Hconst ->].
  destruct (queried rows query replace) as [|r0 df]; [by apply elem_of_nil in Hr|].
  apply (Hconst r0 r); [by left|done].
Qed.

(** iamc_like_data_for_query, drop_unique: the error "0 rows matching" is
    raised exactly when the query selects no row of the file. *)
Theorem iamc_no_rows_iff :
  iamc_like_data_for_query iso_3166_alpha_3 units_defined rows query replace = inl NoRows
  <-> forall r, r ∈ rows -> query r = false.
Proof.
  rewrite <- (queried_nil rows query replace). split.
  - intros [[_ E]|[E|[unit [=]]]]%iamc_inl_inv; [done|].
    apply check_unique_inl in E as (? & ? & ? & _ & _ & _ & [=]).
  - intros E. by rewrite iamc_unfold, E.
Qed.

(** iamc_like_data_for_query, drop_unique: a quantity is returned exactly
    when the query selects at least one row, the selected rows agree, after
    the replacements, on each of Model, Scenario, Variable and Unit, and
    their unit is one that the unit registry knows. *)
Theorem iamc_returns_iff :
  (exists q,
     iamc_like_data_for_query iso_3166_alpha_3 units_defined rows query replace = inr q)
  <-> (exists r, r ∈ rows /\ query r = true) /\
      (forall name, name ∈ unique_names ->
         constant_column name (queried rows query replace)) /\
      (forall r, r ∈ queried rows query replace -> units_defined (UNIT r) = true).
Proof.
  split.
  - intros [q (u & Hrows & Eu & Hu & _)%iamc_inr_inv]. split; [|split].
    + destruct (decide (Exists (fun r => query r = true) rows)) as [Hex|Hno].
      { apply Exists_exists in Hex as (r & Hr & Hq). by exists r. }
      destruct Hrows. apply queried_nil. intros r Hr.
      destruct (query r) eqn:Hq; [|done].
      destruct Hno. apply Exists_exists. by exists r.
    + intros name Hname. by apply (check_unique_inr _ _ _ _ Eu).
    + intros r Hr. by rewrite <- (check_unique_unit u r Eu Hr).
  - intros ((r & Hr & Hq) & Hconst & Hunits). rewrite iamc_unfold.
    destruct (queried rows query replace) as [|r0 df] eqn:Eq.
    { rewrite (proj1 (queried_nil _ _ _) Eq r Hr) in Hq. done. }
    rewrite <- Eq in *.
    destruct (check_unique_constant _ _ ∅ Hconst) as [u Eu]. rewrite Eu.
    assert (Hr0 : r0 ∈ queried rows query replace) by (rewrite Eq; by left).
    rewrite (check_unique_unit u r0 Eu Hr0), (Hunits r0 Hr0). by eexists.
Qed.

(** iamc_like_data_for_query: the units of the returned quantity are the
    Unit cell of every selected row (after the replacements). *)
Theorem iamc_units_of_rows (q : IamcQuantity) (r : IamcRow) :
  iamc_like_data_for_query iso_3166_alpha_3 units_defined rows query replace = inr q ->
  r ∈ queried rows query replace ->
  iamc_units q = UNIT r.
Proof.
  intros (u & _ & Eu & _ & ->)%iamc_inr_inv Hr. cbn [iamc_units].
  by apply check_unique_unit.
Qed.

(** iamc_like_data_for_query: the returned series holds the value v at
    node n and year y exactly when a selected row whose region has the
    alpha-3 code n carries v in its column y; regions without a code and
    empty cells leave no entry. *)
Theorem iamc_entries_iff (q : IamcQuantity) (n : string) (y : Z) (v : Q) :
  iamc_like_data_for_query iso_3166_alpha_3 units_defined rows query replace = inr q ->
  (n, y, v) ∈ entries q
  <-> exists r, r ∈ queried rows query replace /\
        iso_3166_alpha_3 (REGION r) = Some n /\ (y, Some v) ∈ series r.
Proof.
  intros (u & _ & _ & _ & ->)%iamc_inr_inv. cbn [entries]. rewrite elem_of_stack. split.
  - intros (s & (region & Hin & Hiso)%elem_of_index_by_node & Hy).
    change (map ?f ?l) with (f <$> l) in Hin.
    apply list_elem_of_fmap in Hin as (r & [= -> ->] & Hr). by exists r.
  - intros (r & Hr & Hiso & Hy). exists (series r). split; [|done].
    apply elem_of_index_by_node. exists (REGION r). split; [|done].
    change (map ?f ?l) with (f <$> l).
    by apply (list_elem_of_fmap_2 (fun r => (REGION r, series r))).
Qed.

(** drop_unique: the error "Not unique" names the first of Model,
    Scenario, Variable, Unit on which the selected rows disagree, with the
    two or more distinct values found. *)
Theorem iamc_not_unique_first (name : string) (values : list string) :
  iamc_like_data_for_query iso_3166_alpha_3 units_defined rows query replace
    = inl (NotUnique name values) ->
  exists before after,
    unique_names = before ++ name :: after /\
    (forall n, n ∈ before -> constant_column n (queried rows query replace)) /\
    ~ constant_column name (queried rows query replace) /\
    values = unique_values (map (column name) (queried rows query replace)) /\
    (1 < length values)%nat.
Proof.
  intros [[[=] _]|[Eu|[unit [=]]]]%iamc_inl_inv.
  apply check_unique_inl in Eu as (before & name' & after & Hn & Hb & Hc & [= -> ->]).
  exists before, after. repeat split; [done..|].
  apply Nat.ltb_lt. destruct (1 <? _)%nat eqn:Hs; [done|].
  by apply constant_column_short in Hs.
Qed.

End IamcQuery.

Section IamcExamples.
Import ExoData.

Lemma iamc_units_of_rows_witness :
  iamc_units (mkIamcQuantity [("AUT", 2020%Z, 9 # 1); ("ALB", 2020%Z, 3 # 1);
                              ("ALB", 2030%Z, 3 # 1)] "million") = "million".
Proof.
  apply (iamc_units_of_rows sample_iso sample_units sample_iamc is_population None _
           (mkIamcRow "IIASA" "SSP2" "Population" "million" "World"
              [(2020%Z, Some (7800 # 1)); (2030%Z, Some (8500 # 1))])).
  - reflexivity.
  - vm_compute. right. left.
Defined.

Lemma iamc_entries_iff_witness :
  ("ALB", 2030%Z, 3 # 1)
    ∈ entries (mkIamcQuantity [("AUT", 2020%Z, 9 # 1); ("ALB", 2020%Z, 3 # 1);
                               ("ALB", 2030%Z, 3 # 1)] "million")
  <-> exists r, r ∈ queried sample_iamc is_population None /\
        sample_iso (REGION r) = Some "ALB" /\ (2030%Z, Some (3 # 1)) ∈ series r.
Proof.
  apply (iamc_entries_iff sample_iso sample_units sample_iamc is_population None).
  reflexivity.
Defined.

Lemma iamc_not_unique_first_witness :
  exists before after,
    unique_names = before ++ "VARIABLE" :: after /\
    (forall n, n ∈ before ->
       constant_column n (queried sample_iamc (fun _ => true) None)) /\
    ~ constant_column "VARIABLE" (queried sample_iamc (fun _ => true) None) /\
    ["Population"; "GDP"] =
      unique_values (map (column "VARIABLE")
                       (queried sample_iamc (fun _ => true) None)) /\
    (1 < length ["Population"; "GDP"])%nat.
Proof.
  apply (iamc_not_unique_first sample_iso sample_units sample_iamc (fun _ => true) None).
  reflexivity.
Defined.

End IamcExamples.
